(** * A shallow embedding of [main.py]

    The service has three kinds of handlers: two constant greetings, the
    database probe [test_database] and the presentation generator
    [generate_pptx].  This development embeds the last two, together with
    the request models [Slide] and [PresentationPayload], and proves the
    properties stated about them.

    Conventions.
    - A Python [str] is a sequence of Unicode code points, [list N]; slicing
      [s[:n]] is [take n s].  Literals are written as Rocq strings and
      decoded from UTF-8 by [u].
    - Python exceptions are values of [exn]; code that may raise returns a
      [result], and code that also mutates an object runs in the monad [M]
      over that object, in which the mutations done before a [raise] stay
      visible to the [except] clause that catches it.
    - Objects handed out by reference (a slide, a placeholder shape, a
      paragraph) are addressed by their position in the presentation, and
      every mutation goes through that position.
    - The libraries the handlers drive are modelled where they decide what
      the handlers do: python-pptx and lxml for the text a document can
      hold and what is read back from it, Starlette for the headers a
      response can carry, pydantic and FastAPI for the validation of a
      request body and the answer to a body that does not validate. *)

From Stdlib Require Import ZArith NArith String Ascii List Lia.
From stdpp Require Import base option list strings gmap fin_maps.

Open Scope string_scope.
Open Scope list_scope.

(* ===================================================================== *)
(** * Python strings *)
(* ===================================================================== *)

Module PyStr.

Abbreviation codepoint := N.
Abbreviation str := (list N).

(** One step of a UTF-8 decoder: [pending] continuation bytes are still
    expected for the code point accumulated in [acc]. *)
Definition utf8_step (st : str * (nat * N)) (b : N) : str * (nat * N) :=
  let '(out, (pending, acc)) := st in
  match pending with
  | S k =>
      let acc' := (acc * 64 + b mod 64)%N in
      match k with
      | O => (acc' :: out, (O, 0%N))
      | S _ => (out, (k, acc'))
      end
  | O =>
      if (b <? 128)%N then (b :: out, (O, 0%N))
      else if (b <? 224)%N then (out, (1%nat, (b mod 32)%N))
      else if (b <? 240)%N then (out, (2%nat, (b mod 16)%N))
      else (out, (3%nat, (b mod 8)%N))
  end.

Definition utf8_decode (bytes : list N) : str :=
  rev (fst (fold_left utf8_step bytes ([], (O, 0%N)))).

(** The Python literal whose source text is [s]. *)
Definition u (s : string) : str :=
  utf8_decode (map N_of_ascii (list_ascii_of_string s)).

(** [bool(s)]: a string is truthy unless it is empty. *)
Definition truthy (s : str) : bool :=
  match s with
  | [] => false
  | _ :: _ => true
  end.

(** [bool(o)] for a value that is a string or [None]. *)
Definition truthy_opt (o : option str) : bool :=
  match o with
  | None => false
  | Some s => truthy s
  end.

(** [o or default] for [o : str | None]. *)
Definition or_else (o : option str) (default : str) : str :=
  match o with
  | Some s => if truthy s then s else default
  | None => default
  end.

(** [s.replace(old, new)] for one-character [old] and [new]. *)
Definition replace (old new : codepoint) (s : str) : str :=
  (fun c => if (c =? old)%N then new else c) <$> s.

Definition space : codepoint := 32%N.
Definition underscore : codepoint := 95%N.
Definition dquote : codepoint := 34%N.
Definition newline : codepoint := 10%N.
Definition vtab : codepoint := 11%N.

(** [sep.join(parts)] *)
Fixpoint join (sep : str) (parts : list str) : str :=
  match parts with
  | [] => []
  | [p] => p
  | p :: rest => p ++ sep ++ join sep rest
  end.

(** The pieces of [s] between separators, as [s.split(sep)] and
    [re.split] give them: one more than there are separators, empty pieces
    included. *)
Fixpoint split_on (is_sep : codepoint -> bool) (s : str) : list str :=
  match s with
  | [] => [[]]
  | c :: rest =>
      if is_sep c then [] :: split_on is_sep rest
      else match split_on is_sep rest with
           | piece :: pieces => (c :: piece) :: pieces
           | [] => [[c]]
           end
  end.

End PyStr.

Import PyStr.

(* ===================================================================== *)
(** * Exceptions and mutable state *)
(* ===================================================================== *)

Module Py.

(** The classes of [Exception] the program can meet.  [except ImportError]
    also catches its subclass [ModuleNotFoundError], so both are
    [ImportError] here.  Exceptions outside [Exception] (interpreter
    exit, keyboard interrupt) are not modelled. *)
Inductive exn_class :=
  | ImportError
  | AttributeError
  | KeyError
  | IndexError
  | ValueError
  | UnicodeEncodeError
  | OtherException.

Record exn := Exn {
  exn_cls : exn_class;
  exn_str : str            (* str(e) *)
}.

Definition is_ImportError (e : exn) : bool :=
  match exn_cls e with
  | ImportError => true
  | _ => false
  end.

(** Every modelled exception is an instance of [Exception]. *)
Definition is_Exception (e : exn) : bool := true.

(** [isinstance(e, ValueError)]; [UnicodeEncodeError] is a subclass. *)
Definition is_ValueError (e : exn) : bool :=
  match exn_cls e with
  | ValueError | UnicodeEncodeError => true
  | _ => false
  end.

Inductive result (A : Type) :=
  | Return (a : A)
  | Raise (e : exn).
Arguments Return {A} a.
Arguments Raise {A} e.

(** A computation over a mutable object of type [S]. *)
Definition M (S A : Type) : Type := S -> result A * S.

Definition ret {S A} (a : A) : M S A := fun s => (Return a, s).

Definition bind {S A B} (m : M S A) (k : A -> M S B) : M S B :=
  fun s =>
    match m s with
    | (Return a, s') => k a s'
    | (Raise e, s') => (Raise e, s')
    end.

Definition raise {S A} (e : exn) : M S A := fun s => (Raise e, s).

Definition lift {S A} (r : result A) : M S A := fun s => (r, s).

Definition get {S} : M S S := fun s => (Return s, s).

Definition modify {S} (f : S -> S) : M S unit := fun s => (Return tt, f s).

(** The first [except] clause whose class test accepts [e]. *)
Fixpoint select_handler {S} (clauses : list ((exn -> bool) * (exn -> M S unit)))
    (e : exn) : option (M S unit) :=
  match clauses with
  | [] => None
  | (accepts, handler) :: rest =>
      if accepts e then Some (handler e) else select_handler rest e
  end.

(** [try: body  except C1 as e: h1  except C2 as e: h2 ...]; an exception no
    clause accepts is raised again. *)
Definition try_except {S} (body : M S unit)
    (clauses : list ((exn -> bool) * (exn -> M S unit))) : M S unit :=
  fun s =>
    match body s with
    | (Return tt, s') => (Return tt, s')
    | (Raise e, s') =>
        match select_handler clauses e with
        | Some h => h s'
        | None => (Raise e, s')
        end
    end.

(** [for x in xs: body], with the loop-carried local variables in [acc]. *)
Fixpoint for_each {S A X} (xs : list X) (acc : A) (body : A -> X -> M S A) : M S A :=
  match xs with
  | [] => ret acc
  | x :: rest => bind (body acc x) (fun acc' => for_each rest acc' body)
  end.

(** A computation on a part [T] of the object [S]: the part is read, the
    computation runs on it, and the part is written back, also when the
    computation raises.  [missing] is raised when the part is not there. *)
Definition zoom {S T A} (part : S -> option T) (put : T -> S -> S) (missing : exn)
    (m : M T A) : M S A :=
  fun s =>
    match part s with
    | Some t => let '(r, t') := m t in (r, put t' s)
    | None => (Raise missing, s)
    end.

(** [m], run on [s], raises a [ValueError]. *)
Definition raises_ValueError {S A} (m : M S A) (s : S) : Prop :=
  exists e s', m s = (Raise e, s') /\ is_ValueError e = true.

(** What the caller of a function sees: its return value or its exception. *)
Definition run {S A} (m : M S A) (init : S) : result A := fst (m init).

End Py.

Import Py.

Declare Scope py_scope.
Delimit Scope py_scope with py.
Notation "x <- m ;; k" := (bind m (fun x => k))
  (at level 100, m at next level, right associativity) : py_scope.
Notation "m ;;; k" := (bind m (fun _ => k))
  (at level 100, right associativity) : py_scope.

(* ===================================================================== *)
(** * The database probe: [GET /test] *)
(* ===================================================================== *)

Module Probe.

(** The handle [db] of the optional [database] module, as far as the probe
    looks at it: whether it has a [name] attribute, and what calling
    [list_collection_names()] does. *)
Record Database := {
  db_name : option str;
  list_collection_names : result (list str)
}.

(** The dict [response]; its keys are fixed, so it is a record. *)
Record response := {
  backend : str;
  database : str;
  database_url : option str;
  database_name : option str;
  connection_status : str;
  collections : list str
}.

Definition set_database (v : str) (r : response) : response :=
  {| backend := backend r; database := v; database_url := database_url r;
     database_name := database_name r;
     connection_status := connection_status r; collections := collections r |}.

Definition set_database_url (v : option str) (r : response) : response :=
  {| backend := backend r; database := database r; database_url := v;
     database_name := database_name r;
     connection_status := connection_status r; collections := collections r |}.

Definition set_database_name (v : option str) (r : response) : response :=
  {| backend := backend r; database := database r; database_url := database_url r;
     database_name := v;
     connection_status := connection_status r; collections := collections r |}.

Definition set_connection_status (v : str) (r : response) : response :=
  {| backend := backend r; database := database r; database_url := database_url r;
     database_name := database_name r;
     connection_status := v; collections := collections r |}.

Definition set_collections (v : list str) (r : response) : response :=
  {| backend := backend r; database := database r; database_url := database_url r;
     database_name := database_name r;
     connection_status := connection_status r; collections := v |}.

Definition initial_response : response :=
  {| backend := u "✅ Running";
     database := u "❌ Not Available";
     database_url := None;
     database_name := None;
     connection_status := u "Not Connected";
     collections := [] |}.

(** [os.getenv(name)] *)
Definition getenv (environ : gmap string str) (name : string) : option str :=
  environ !! name.

Definition msg_set : str := u "✅ Set".
Definition msg_not_set : str := u "❌ Not Set".
Definition msg_module_not_found : str :=
  u "❌ Database module not found (run enable-database first)".
Definition msg_connected_working : str := u "✅ Connected & Working".
Definition msg_connected_but_error : str := u "⚠️  Connected but Error: ".
Definition msg_error : str := u "❌ Error: ".

Open Scope py_scope.

(** [test_database()].  Its inputs are the process environment and what
    [from database import db] does: raise, or bind [db] to a handle or to
    [None]. *)
Definition test_database (environ : gmap string str)
    (import_db : result (option Database)) : result response :=
  run
    (try_except
       (db <- lift import_db ;;
        match db with
        | Some db =>
            modify (set_database (u "✅ Available")) ;;;
            modify (set_database_url (Some (u "✅ Configured"))) ;;;
            modify (set_database_name
                      (Some (match db_name db with
                             | Some n => n
                             | None => u "✅ Connected"
                             end))) ;;;
            modify (set_connection_status (u "Connected")) ;;;
            try_except
              (collections <- lift (list_collection_names db) ;;
               modify (set_collections (take 10 collections)) ;;;
               modify (set_database msg_connected_working))
              [(is_Exception,
                fun e => modify (set_database
                                   (msg_connected_but_error ++ take 50 (exn_str e))))]
        | None =>
            modify (set_database (u "⚠️  Available but not initialized"))
        end)
       [(is_ImportError,
         fun _ => modify (set_database msg_module_not_found));
        (is_Exception,
         fun e => modify (set_database (msg_error ++ take 50 (exn_str e))))] ;;;
     modify (set_database_url
               (Some (if truthy_opt (getenv environ "DATABASE_URL")
                      then msg_set else msg_not_set))) ;;;
     modify (set_database_name
               (Some (if truthy_opt (getenv environ "DATABASE_NAME")
                      then msg_set else msg_not_set))) ;;;
     get)
    initial_response.

Close Scope py_scope.

End Probe.

(* ===================================================================== *)
(** * The presentation library, as far as [generate_pptx] drives it *)
(* ===================================================================== *)

(** The object model of python-pptx: a presentation holds the layouts of its
    template and a sequence of slides; a slide made from a layout gets a
    copy of the layout's placeholders, each found by its [idx]; a
    placeholder's text frame is a sequence of paragraphs; a paragraph
    holds runs of text and line breaks.

    Text does not go in as it is given.  Assigning the text of a shape
    starts a paragraph at every line feed; assigning the text of a
    paragraph turns every line feed and vertical tab into a line break,
    which reads back as a vertical tab; the other C0 controls but the tab
    are written as [_xHHHH_]; and lxml, which holds the XML, refuses a
    string with a surrogate, U+FFFE or U+FFFF by raising. *)

Module Pptx.

Inductive PP_PLACEHOLDER :=
  | TITLE
  | CENTER_TITLE
  | SUBTITLE
  | BODY
  | OBJECT
  | PICTURE.

Record SlideLayout := {
  layout_name : string;
  layout_placeholders : list (nat * PP_PLACEHOLDER)
}.

(** The children of a paragraph that carry text: a run [a:r], with the text
    of its [a:t], and a line break [a:br]. *)
Inductive TextChild :=
  | Run (t : str)
  | LineBreak.

Record Paragraph := {
  content : list TextChild;
  level : Z;
  font_size : option Z         (* in EMU; [None] inherits *)
}.

Record Shape := {
  ph_type : PP_PLACEHOLDER;
  paragraphs : list Paragraph  (* text_frame.paragraphs *)
}.

Record Slide := {
  slide_layout : SlideLayout;
  placeholders : gmap nat Shape
}.

Record Presentation := {
  slide_layouts : list SlideLayout;
  slides : list Slide
}.

(** [Pt(n)]: a length of [n] points, in English Metric Units. *)
Definition Pt (n : Z) : Z := (n * 12700)%Z.

Definition empty_paragraph : Paragraph :=
  {| content := []; level := 0; font_size := None |}.

(** ** What lxml accepts *)

Definition is_surrogate (c : codepoint) : bool :=
  (55296 <=? c)%N && (c <=? 57343)%N.          (* U+D800 .. U+DFFF *)

(** An ASCII character must be an XML character: tab, line feed, carriage
    return, or from the space on; beyond ASCII only U+FFFE and U+FFFF are
    refused. *)
Definition xml_char (c : codepoint) : bool :=
  if (c <? 128)%N
  then (c =? 9)%N || (c =? 10)%N || (c =? 13)%N || (32 <=? c)%N
  else negb ((c =? 65534)%N || (c =? 65535)%N).

(** lxml's check of a string that becomes element text: the string is
    encoded as UTF-8, which fails on a surrogate, and must then hold XML
    characters only. *)
Definition lxml_utf8 (s : str) : result unit :=
  if existsb is_surrogate s
  then Raise (Exn UnicodeEncodeError
                (u "'utf-8' codec can't encode character: surrogates not allowed"))
  else if forallb xml_char s
  then Return tt
  else Raise (Exn ValueError
                (u "All strings must be XML compatible: Unicode or ASCII, no NULL bytes or control characters")).

(** ** What python-pptx escapes *)

(** The class [[\x00-\x08\x0B-\x1F]]. *)
Definition is_escaped_ctrl (c : codepoint) : bool :=
  (c <=? 8)%N || ((11 <=? c)%N && (c <=? 31)%N).

Definition hex_digit (d : N) : codepoint :=
  if (d <? 10)%N then (48 + d)%N else (55 + d)%N.

(** ["%04X" % n], for [n] below 65536. *)
Definition format_04X (n : N) : str :=
  [ hex_digit ((n / 4096) mod 16)%N; hex_digit ((n / 256) mod 16)%N;
    hex_digit ((n / 16) mod 16)%N; hex_digit (n mod 16)%N ].

Definition escape_ctrl_char (c : codepoint) : str :=
  if is_escaped_ctrl c then u "_x" ++ format_04X c ++ u "_" else [c].

(** [_escape_ctrl_chars(s)] *)
Definition escape_ctrl_chars (s : str) : str :=
  mjoin (escape_ctrl_char <$> s).

(** The separators of [text.split("\n")] and of [re.split("\n|\v", text)]. *)
Definition is_newline (c : codepoint) : bool := (c =? newline)%N.
Definition is_break (c : codepoint) : bool := (c =? newline)%N || (c =? vtab)%N.

(** ** The template *)

(** The layouts of the default template, in order; [slide_layouts[0]] is
    the title layout and [slide_layouts[1]] the bullet layout. *)
Definition title_slide_layout : SlideLayout :=
  {| layout_name := "Title Slide";
     layout_placeholders := [(0, CENTER_TITLE); (1, SUBTITLE)] |}.

Definition title_and_content_layout : SlideLayout :=
  {| layout_name := "Title and Content";
     layout_placeholders := [(0, TITLE); (1, OBJECT)] |}.

Definition default_layouts : list SlideLayout :=
  [ title_slide_layout;
    title_and_content_layout;
    {| layout_name := "Section Header";
       layout_placeholders := [(0, TITLE); (1, BODY)] |};
    {| layout_name := "Two Content";
       layout_placeholders := [(0, TITLE); (1, OBJECT); (2, OBJECT)] |};
    {| layout_name := "Comparison";
       layout_placeholders :=
         [(0, TITLE); (1, BODY); (2, OBJECT); (3, BODY); (4, OBJECT)] |};
    {| layout_name := "Title Only";
       layout_placeholders := [(0, TITLE)] |};
    {| layout_name := "Blank";
       layout_placeholders := [] |};
    {| layout_name := "Content with Caption";
       layout_placeholders := [(0, TITLE); (1, OBJECT); (2, BODY)] |};
    {| layout_name := "Picture with Caption";
       layout_placeholders := [(0, TITLE); (1, PICTURE); (2, BODY)] |};
    {| layout_name := "Title and Vertical Text";
       layout_placeholders := [(0, TITLE); (1, BODY)] |};
    {| layout_name := "Vertical Title and Text";
       layout_placeholders := [(0, TITLE); (1, BODY)] |} ].

(** [Presentation()]: the default template, no slide yet. *)
Definition new_Presentation : Presentation :=
  {| slide_layouts := default_layouts; slides := [] |}.

Definition clone_placeholder (p : nat * PP_PLACEHOLDER) : nat * Shape :=
  (p.1, {| ph_type := p.2; paragraphs := [empty_paragraph] |}).

Definition new_slide (layout : SlideLayout) : Slide :=
  {| slide_layout := layout;
     placeholders := list_to_map (clone_placeholder <$> layout_placeholders layout) |}.

(** ** Objects and the references to them *)

(** References: a slide by its position, a shape by its slide and its
    placeholder [idx], a paragraph by its shape and its position. *)
Definition slide_ref : Type := nat.
Definition shape_ref : Type := slide_ref * nat.
Definition paragraph_ref : Type := shape_ref * nat.

Definition update_slide (i : slide_ref) (f : Slide -> Slide)
    (prs : Presentation) : Presentation :=
  {| slide_layouts := slide_layouts prs; slides := alter f i (slides prs) |}.

Definition alter_shape (idx : nat) (f : Shape -> Shape) (sl : Slide) : Slide :=
  {| slide_layout := slide_layout sl;
     placeholders := alter f idx (placeholders sl) |}.

Definition update_shape (r : shape_ref) (f : Shape -> Shape) : Presentation -> Presentation :=
  update_slide r.1 (alter_shape r.2 f).

Definition with_paragraphs (f : list Paragraph -> list Paragraph) (sh : Shape) : Shape :=
  {| ph_type := ph_type sh; paragraphs := f (paragraphs sh) |}.

Definition with_content (f : list TextChild -> list TextChild) (p : Paragraph) : Paragraph :=
  {| content := f (content p); level := level p; font_size := font_size p |}.

Definition lookup_shape (r : shape_ref) (prs : Presentation) : option Shape :=
  sl ← slides prs !! r.1; placeholders sl !! r.2.

(** The slide [sl] with the placeholder [idx] replaced by [sh], and the
    presentation [prs] with [sl] added last: the shapes of the states the
    generator goes through. *)
Definition set_shape (idx : nat) (sh : Shape) (sl : Slide) : Slide :=
  {| slide_layout := slide_layout sl;
     placeholders := <[idx := sh]> (placeholders sl) |}.

Definition snoc_slide (prs : Presentation) (sl : Slide) : Presentation :=
  {| slide_layouts := slide_layouts prs; slides := slides prs ++ [sl] |}.

(** ** Reading text back *)

Definition child_text (c : TextChild) : str :=
  match c with
  | Run t => t
  | LineBreak => [vtab]
  end.

(** [paragraph.text] read back: the runs' texts, a vertical tab for each
    line break. *)
Definition paragraph_text (p : Paragraph) : str :=
  mjoin (child_text <$> content p).

(** [shape.text] read back: the paragraphs' texts, one per line. *)
Definition shape_text (sh : Shape) : str :=
  join [newline] (paragraph_text <$> paragraphs sh).

(** [slide.shapes.title.text] read back, when the slide has a title. *)
Definition slide_title_text (sl : Slide) : option str :=
  shape_text <$> placeholders sl !! 0.

Open Scope py_scope.

(** ** Operations on one paragraph *)

(** [paragraph.clear()]: the content goes, the properties stay. *)
Definition p_clear : M Paragraph unit :=
  modify (with_content (fun _ => [])).

(** [p.add_br()] *)
Definition p_add_br : M Paragraph unit :=
  modify (with_content (fun cs => cs ++ [LineBreak])).

(** [p.add_r()]: a new run, its text empty, last. *)
Definition p_add_r : M Paragraph nat :=
  p <- get ;;
  modify (with_content (fun cs => cs ++ [Run []])) ;;;
  ret (length (content p)).

(** [r.text = value]: the escaped value is handed to lxml, which may refuse
    it. *)
Definition run_set_text (r : nat) (value : str) : M Paragraph unit :=
  let escaped := escape_ctrl_chars value in
  lift (lxml_utf8 escaped) ;;;
  modify (with_content (fun cs => <[r := Run escaped]> cs)).

(** The body of [for idx, r_str in enumerate(re.split("\n|\v", text))]. *)
Definition append_piece (idx : nat) (r_str : str) : M Paragraph nat :=
  (if (0 <? idx)%nat then p_add_br else ret tt) ;;;
  (if truthy r_str then (r <- p_add_r ;; run_set_text r r_str) else ret tt) ;;;
  ret (S idx).

(** [p.append_text(text)] *)
Definition p_append_text (text : str) : M Paragraph unit :=
  _ <- for_each (split_on is_break text) O append_piece ;;
  ret tt.

(** [paragraph.text = text] *)
Definition p_set_text (text : str) : M Paragraph unit :=
  p_clear ;;; p_append_text text.

Definition p_set_level (n : Z) : M Paragraph unit :=
  modify (fun q => {| content := content q; level := n; font_size := font_size q |}).

Definition p_font_set_size (sz : Z) : M Paragraph unit :=
  modify (fun q => {| content := content q; level := level q; font_size := Some sz |}).

(** ** Operations on one text frame *)

(** A computation on the paragraph at position [k] of a text frame. *)
Definition at_paragraph {A} (k : nat) (m : M Paragraph A) : M Shape A :=
  zoom (fun sh => paragraphs sh !! k)
       (fun p => with_paragraphs (fun ps => <[k := p]> ps))
       (Exn IndexError (u "list index out of range")) m.

(** [txBody.add_p()]: a new empty paragraph, last. *)
Definition tf_add_p : M Shape nat :=
  sh <- get ;;
  modify (with_paragraphs (fun ps => ps ++ [empty_paragraph])) ;;;
  ret (length (paragraphs sh)).

(** [text_frame.clear()]: every paragraph but the first is removed, and the
    first is cleared. *)
Definition tf_clear : M Shape unit :=
  modify (with_paragraphs (take 1)) ;;;
  at_paragraph 0 p_clear.

(** [text_frame.text = text]: the paragraphs go, and each line of the text
    gets a paragraph of its own. *)
Definition tf_set_text (text : str) : M Shape unit :=
  modify (with_paragraphs (fun _ => [])) ;;;
  for_each (split_on is_newline text) tt
    (fun _ p_str => p <- tf_add_p ;; at_paragraph p (p_append_text p_str)).

(** ** Operations through references into the presentation *)

(** A computation on the shape a reference points to. *)
Definition at_shape {A} (r : shape_ref) (m : M Shape A) : M Presentation A :=
  zoom (lookup_shape r)
       (fun sh => update_shape r (fun _ => sh))
       (Exn AttributeError (u "'NoneType' object has no attribute 'text_frame'")) m.

(** [prs.slide_layouts[i]] *)
Definition slide_layouts_getitem (i : nat) : M Presentation SlideLayout :=
  prs <- get ;;
  match slide_layouts prs !! i with
  | Some layout => ret layout
  | None => raise (Exn IndexError (u "slide layout index out of range"))
  end.

(** [prs.slides.add_slide(layout)]: the new slide goes last. *)
Definition add_slide (layout : SlideLayout) : M Presentation slide_ref :=
  prs <- get ;;
  modify (fun prs => {| slide_layouts := slide_layouts prs;
                        slides := slides prs ++ [new_slide layout] |}) ;;;
  ret (length (slides prs)).

(** [slide.shapes.title]: the placeholder with [idx] 0, or [None]. *)
Definition shapes_title (sl : slide_ref) : M Presentation (option shape_ref) :=
  prs <- get ;;
  match lookup_shape (sl, O) prs with
  | Some _ => ret (Some (sl, O))
  | None => ret None
  end.

(** Attribute access on a value that may be [None]. *)
Definition attr_target {A} (o : option A) : M Presentation A :=
  match o with
  | Some a => ret a
  | None => raise (Exn AttributeError (u "'NoneType' object has no attribute"))
  end.

(** [slide.placeholders[idx]], also [slide.shapes.placeholders[idx]]: a
    lookup by the placeholder's [idx], not by position. *)
Definition placeholders_getitem (sl : slide_ref) (idx : nat) : M Presentation shape_ref :=
  prs <- get ;;
  match lookup_shape (sl, idx) prs with
  | Some _ => ret (sl, idx)
  | None => raise (Exn KeyError (u "no placeholder on this slide with idx"))
  end.

(** [shape.text = s] *)
Definition shape_set_text (r : shape_ref) (s : str) : M Presentation unit :=
  at_shape r (tf_set_text s).

(** [tf.paragraphs[k]] *)
Definition paragraphs_getitem (tf : shape_ref) (k : nat) : M Presentation paragraph_ref :=
  prs <- get ;;
  match lookup_shape tf prs ≫= (fun sh => paragraphs sh !! k) with
  | Some _ => ret (tf, k)
  | None => raise (Exn IndexError (u "list index out of range"))
  end.

(** [tf.clear()] *)
Definition text_frame_clear (tf : shape_ref) : M Presentation unit :=
  at_shape tf tf_clear.

(** [tf.add_paragraph()] *)
Definition add_paragraph (tf : shape_ref) : M Presentation paragraph_ref :=
  k <- at_shape tf tf_add_p ;;
  ret (tf, k).

(** [p.text = s] *)
Definition paragraph_set_text (p : paragraph_ref) (s : str) : M Presentation unit :=
  at_shape p.1 (at_paragraph p.2 (p_set_text s)).

(** [p.level = n] *)
Definition paragraph_set_level (p : paragraph_ref) (n : Z) : M Presentation unit :=
  at_shape p.1 (at_paragraph p.2 (p_set_level n)).

(** [p.font.size = sz] *)
Definition paragraph_font_set_size (p : paragraph_ref) (sz : Z) : M Presentation unit :=
  at_shape p.1 (at_paragraph p.2 (p_font_set_size sz)).

Close Scope py_scope.

End Pptx.

(* ===================================================================== *)
(** * Request bodies and their validation *)
(* ===================================================================== *)

Module Json.

(** A parsed JSON document.  An object keeps its members in the order of
    the text; a number keeps its literal. *)
#[local] Unset Elimination Schemes.
Inductive json :=
  | JNull
  | JBool (b : bool)
  | JNumber (literal : str)
  | JString (s : str)
  | JArray (items : list json)
  | JObject (members : list (str * json)).
#[local] Set Elimination Schemes.

(** Member lookup as in the dict built from the text: a repeated key keeps
    its last value. *)
Fixpoint members_get (k : str) (ms : list (str * json)) : option json :=
  match ms with
  | [] => None
  | (k', v) :: rest =>
      match members_get k rest with
      | Some later => Some later
      | None => if decide (k' = k) then Some v else None
      end
  end.

Inductive loc_item :=
  | Key (name : str)
  | Index (i : nat).

Inductive error_type :=
  | missing
  | string_type
  | list_type
  | model_type
  | model_attributes_type.

Record error := {
  loc : list loc_item;
  type : error_type
}.

Inductive validated (A : Type) :=
  | Valid (a : A)
  | Invalid (errors : list error).
Arguments Valid {A} a.
Arguments Invalid {A} errors.

Definition at_loc {A} (l : loc_item) (v : validated A) : validated A :=
  match v with
  | Valid a => Valid a
  | Invalid errors =>
      Invalid ((fun e => {| loc := l :: loc e; type := type e |}) <$> errors)
  end.

(** Both parts must be valid; the errors of both are reported. *)
Definition both {A B} (a : validated A) (b : validated B) : validated (A * B) :=
  match a, b with
  | Valid x, Valid y => Valid (x, y)
  | Valid _, Invalid eb => Invalid eb
  | Invalid ea, Valid _ => Invalid ea
  | Invalid ea, Invalid eb => Invalid (ea ++ eb)
  end.

Fixpoint all_valid {A} (vs : list (validated A)) : validated (list A) :=
  match vs with
  | [] => Valid []
  | v :: rest =>
      match both v (all_valid rest) with
      | Valid (x, xs) => Valid (x :: xs)
      | Invalid errors => Invalid errors
      end
  end.


(** A field annotated [str]. *)
Definition validate_str (j : json) : validated str :=
  match j with
  | JString s => Valid s
  | _ => Invalid [ {| loc := []; type := string_type |} ]
  end.

(** A field annotated [str | None]. *)
Definition validate_optional_str (j : json) : validated (option str) :=
  match j with
  | JNull => Valid None
  | JString s => Valid (Some s)
  | _ => Invalid [ {| loc := []; type := string_type |} ]
  end.

(** A field annotated [List[T]]. *)
Definition validate_list {A} (elem : json -> validated A) (j : json) : validated (list A) :=
  match j with
  | JArray items => all_valid (imap (fun i x => at_loc (Index i) (elem x)) items)
  | _ => Invalid [ {| loc := []; type := list_type |} ]
  end.

(** A field declared without a default ([Field(...)], or a bare annotation). *)
Definition required_field {A} (name : str) (validator : json -> validated A)
    (ms : list (str * json)) : validated A :=
  match members_get name ms with
  | Some v => at_loc (Key name) (validator v)
  | None => Invalid [ {| loc := [Key name]; type := missing |} ]
  end.

(** A field declared with a default or a default factory. *)
Definition defaulted_field {A} (name : str) (validator : json -> validated A)
    (default : A) (ms : list (str * json)) : validated A :=
  match members_get name ms with
  | Some v => at_loc (Key name) (validator v)
  | None => Valid default
  end.

End Json.

Import Json.

(* ===================================================================== *)
(** * The response object *)
(* ===================================================================== *)

(** Starlette's [StreamingResponse], as far as its constructor goes: the
    header names are lowered, names and values are encoded as latin-1,
    which raises on a character above U+00FF, and a [content-type] header
    is added from the media type. *)

Module Starlette.

Record StreamingResponse := {
  content : Pptx.Presentation;           (* what the body iterator streams *)
  status_code : nat;
  media_type : str;
  raw_headers : list (string * list N)   (* name, bytes of the value *)
}.

(** [s.encode("latin-1")]; a byte is the number of its code point. *)
Definition encode_latin1 (s : str) : result (list N) :=
  if forallb (fun c => (c <? 256)%N) s
  then Return s
  else Raise (Exn UnicodeEncodeError
                (u "'latin-1' codec can't encode characters: ordinal not in range(256)")).

Definition lower_ascii (a : ascii) : ascii :=
  let n := nat_of_ascii a in
  if ((65 <=? n) && (n <=? 90))%nat then ascii_of_nat (n + 32) else a.

(** [k.lower()], for an ASCII name. *)
Fixpoint lower (s : string) : string :=
  match s with
  | EmptyString => EmptyString
  | String a rest => String (lower_ascii a) (lower rest)
  end.

(** [[(k.lower().encode("latin-1"), v.encode("latin-1")) for k, v in headers.items()]] *)
Fixpoint encode_headers (headers : list (string * str)) : result (list (string * list N)) :=
  match headers with
  | [] => Return []
  | (k, v) :: rest =>
      match encode_latin1 v with
      | Raise e => Raise e
      | Return bytes =>
          match encode_headers rest with
          | Raise e => Raise e
          | Return raw => Return ((lower k, bytes) :: raw)
          end
      end
  end.

Fixpoint starts_with (prefix s : str) : bool :=
  match prefix, s with
  | [], _ => true
  | _ :: _, [] => false
  | a :: prefix', b :: s' => (a =? b)%N && starts_with prefix' s'
  end.

(** [needle in s] *)
Fixpoint contains (needle s : str) : bool :=
  starts_with needle s
  || match s with
     | [] => false
     | _ :: rest => contains needle rest
     end.

(** [s.lower()] on the ASCII letters of [s]. *)
Definition lower_str (s : str) : str :=
  (fun c => if ((65 <=? c) && (c <=? 90))%N then (c + 32)%N else c) <$> s.

(** [init_headers(headers)] of a response that has no [body] attribute, so
    that no [content-length] is added: the given headers, then a
    [content-type] made from the media type unless one was given. *)
Definition init_headers (media_type : str) (headers : list (string * str)) :
    result (list (string * list N)) :=
  match encode_headers headers with
  | Raise e => Raise e
  | Return raw =>
      if bool_decide ("content-type" ∈ raw.*1)
      then Return raw
      else
        let content_type :=
          if starts_with (u "text/") media_type
             && negb (contains (u "charset=") (lower_str media_type))
          then media_type ++ u "; charset=utf-8"
          else media_type in
        match encode_latin1 content_type with
        | Raise e => Raise e
        | Return bytes => Return (raw ++ [("content-type", bytes)])
        end
  end.

(** [StreamingResponse(content, media_type=..., headers=...)] *)
Definition new_StreamingResponse (content : Pptx.Presentation) (media_type : str)
    (headers : list (string * str)) : result StreamingResponse :=
  match init_headers media_type headers with
  | Raise e => Raise e
  | Return raw =>
      Return {| content := content; status_code := 200;
                media_type := media_type; raw_headers := raw |}
  end.

Fixpoint raw_get (name : string) (raw : list (string * list N)) : option (list N) :=
  match raw with
  | [] => None
  | (k, v) :: rest => if decide (k = name) then Some v else raw_get name rest
  end.

(** [response.headers[name]]: the first header of that name, whatever the
    case of [name], decoded from latin-1. *)
Definition header (name : string) (r : StreamingResponse) : option str :=
  raw_get (lower name) (raw_headers r).

End Starlette.

(* ===================================================================== *)
(** * The presentation generator: [POST /generate_pptx] *)
(* ===================================================================== *)

Module Generator.

(** [class Slide(BaseModel)] *)
Record Slide := {
  title : str;
  bullets : list str
}.

(** [class PresentationPayload(BaseModel)] *)
Record PresentationPayload := {
  topic : str;
  slides : list Slide;
  author : option str
}.

Definition default_topic : str := u "Yoga: History & Advantages".

Definition validate_Slide (j : json) : validated Slide :=
  match j with
  | JObject ms =>
      match both (required_field (u "title") validate_str ms)
                 (defaulted_field (u "bullets") (validate_list validate_str) [] ms) with
      | Valid (t, bs) => Valid {| title := t; bullets := bs |}
      | Invalid errors => Invalid errors
      end
  | _ => Invalid [ {| loc := []; type := model_type |} ]
  end.

Definition validate_PresentationPayload (j : json) : validated PresentationPayload :=
  match j with
  | JObject ms =>
      match both (defaulted_field (u "topic") validate_str default_topic ms)
                 (both (required_field (u "slides") (validate_list validate_Slide) ms)
                       (defaulted_field (u "author") validate_optional_str None ms)) with
      | Valid (t, (ss, a)) => Valid {| topic := t; slides := ss; author := a |}
      | Invalid errors => Invalid errors
      end
  | _ => Invalid [ {| loc := []; type := model_type |} ]
  end.

Definition pptx_media_type : str :=
  u "application/vnd.openxmlformats-officedocument.presentationml.presentation".

Definition default_subtitle : str := u "Auto-generated presentation".

(** [f"{topic.replace(' ', '_')}.pptx"] *)
Definition filename_of (topic : str) : str :=
  replace space underscore topic ++ u ".pptx".

(** [f"attachment; filename=\"{filename}\""] *)
Definition content_disposition (filename : str) : str :=
  u "attachment; filename=" ++ [dquote] ++ filename ++ [dquote].

Open Scope py_scope.

(** The body of [for b in s.bullets]; [first] is the loop-carried flag. *)
Definition add_bullet (tf : Pptx.shape_ref) (first : bool) (b : str) :
    M Pptx.Presentation bool :=
  r <- (if first
        then (p <- Pptx.paragraphs_getitem tf 0 ;; ret (p, false))
        else (p <- Pptx.add_paragraph tf ;; ret (p, first))) ;;
  let '(p, first) := r in
  Pptx.paragraph_set_text p b ;;;
  Pptx.paragraph_set_level p 0 ;;;
  Pptx.paragraph_font_set_size p (Pptx.Pt 22) ;;;
  ret first.

(** The body of [for s in payload.slides]. *)
Definition add_content_slide (bullet_layout : Pptx.SlideLayout) (s : Slide) :
    M Pptx.Presentation unit :=
  slide <- Pptx.add_slide bullet_layout ;;
  t <- Pptx.shapes_title slide ;;
  t <- Pptx.attr_target t ;;
  Pptx.shape_set_text t (title s) ;;;
  body_shape <- Pptx.placeholders_getitem slide 1 ;;
  let tf := body_shape in
  Pptx.text_frame_clear tf ;;;
  _ <- for_each (bullets s) true (add_bullet tf) ;;
  ret tt.

(** The document-building part of [generate_pptx], up to [prs.save]. *)
Definition build_presentation (payload : PresentationPayload) : M Pptx.Presentation unit :=
  title_layout <- Pptx.slide_layouts_getitem 0 ;;
  slide0 <- Pptx.add_slide title_layout ;;
  t <- Pptx.shapes_title slide0 ;;
  t <- Pptx.attr_target t ;;
  Pptx.shape_set_text t (topic payload) ;;;
  subtitle <- Pptx.placeholders_getitem slide0 1 ;;
  Pptx.shape_set_text subtitle (or_else (author payload) default_subtitle) ;;;
  bullet_layout <- Pptx.slide_layouts_getitem 1 ;;
  for_each (slides payload) tt (fun _ s => add_content_slide bullet_layout s).

Close Scope py_scope.

(** [generate_pptx(payload)]: the document is built and saved into the
    buffer, then the response is made around the buffer; either step may
    raise, and nothing in the handler catches. *)
Definition generate_pptx (payload : PresentationPayload) :
    result Starlette.StreamingResponse :=
  match build_presentation payload Pptx.new_Presentation with
  | (Return _, prs) =>
      let filename := filename_of (topic payload) in
      let headers := [ ("Content-Disposition", content_disposition filename) ] in
      Starlette.new_StreamingResponse prs pptx_media_type headers
  | (Raise e, _) => Raise e
  end.




End Generator.

(* ===================================================================== *)
(** * The generated document in closed form *)
(* ===================================================================== *)

(** What the loops of [generate_pptx] and of the library compute, as
    functions of the payload, and the payloads on which they get through.
    [built_document_eq] below proves that the handler builds exactly this
    document on such a payload, and [build_presentation_raises] that it
    raises on any other. *)

Module Document.

Import Generator.

(** ** The strings the library stores *)

(** A character that can be stored: python-pptx escapes the C0 controls
    lxml would refuse, so what is left to refuse is a surrogate, U+FFFE
    and U+FFFF. *)
Definition text_char_ok (c : codepoint) : bool :=
  negb (Pptx.is_surrogate c) && negb ((c =? 65534)%N || (c =? 65535)%N).

Definition text_ok (s : str) : bool := forallb text_char_ok s.

Definition slide_ok (s : Slide) : bool :=
  text_ok (title s) && forallb text_ok (bullets s).

(** Every string the handler writes into the document can be stored. *)
Definition payload_ok (payload : PresentationPayload) : bool :=
  text_ok (topic payload)
  && text_ok (or_else (author payload) default_subtitle)
  && forallb slide_ok (slides payload).

(** Every character is below U+0100. *)
Definition latin1_ok (s : str) : bool := forallb (fun c => (c <? 256)%N) s.

(** ** What is read back *)

(** The text read back from a paragraph that was assigned [s]: a line
    feed or vertical tab comes back as a vertical tab, an escaped control
    as its escape. *)
Definition paragraph_readback (s : str) : str :=
  mjoin ((fun c => if Pptx.is_break c then [vtab] else Pptx.escape_ctrl_char c) <$> s).

(** The text read back from a shape that was assigned [s]: line feeds and
    vertical tabs come back as they are, an escaped control as its
    escape. *)
Definition shape_readback (s : str) : str :=
  mjoin ((fun c => if Pptx.is_break c then [c] else Pptx.escape_ctrl_char c) <$> s).

(** No character of [s] is escaped. *)
Definition no_escape (s : str) : bool :=
  forallb (fun c => Pptx.is_break c || negb (Pptx.is_escaped_ctrl c)) s.

(** No character of [s] is escaped or a line feed. *)
Definition one_line (s : str) : bool :=
  forallb (fun c => negb (c =? newline)%N
                    && (Pptx.is_break c || negb (Pptx.is_escaped_ctrl c))) s.

(** ** The content of paragraphs and shapes *)

(** The runs and line breaks [append_text] makes of the pieces of a text:
    a line break before every piece but the first, a run for every piece
    that is not empty. *)
Fixpoint pieces_children (first : bool) (pieces : list str) : list Pptx.TextChild :=
  match pieces with
  | [] => []
  | piece :: rest =>
      (if first then [] else [Pptx.LineBreak])
      ++ (if truthy piece then [Pptx.Run (Pptx.escape_ctrl_chars piece)] else [])
      ++ pieces_children false rest
  end.

Definition text_children (s : str) : list Pptx.TextChild :=
  pieces_children true (split_on Pptx.is_break s).

Definition line_paragraph (line : str) : Pptx.Paragraph :=
  {| Pptx.content := text_children line; Pptx.level := 0; Pptx.font_size := None |}.

Definition text_shape (ty : Pptx.PP_PLACEHOLDER) (s : str) : Pptx.Shape :=
  {| Pptx.ph_type := ty;
     Pptx.paragraphs := line_paragraph <$> split_on Pptx.is_newline s |}.

(** What [p.text = b; p.level = 0; p.font.size = Pt(22)] make of [q]. *)
Definition styled (b : str) (q : Pptx.Paragraph) : Pptx.Paragraph :=
  {| Pptx.content := text_children b; Pptx.level := 0;
     Pptx.font_size := Some (Pptx.Pt 22) |}.

(** One turn of the bullet loop, on the paragraphs of the body. *)
Definition bullet_step (first : bool) (b : str) (ps : list Pptx.Paragraph) :
    list Pptx.Paragraph :=
  if first then alter (styled b) 0 ps else ps ++ [styled b Pptx.empty_paragraph].

Fixpoint after_bullets (first : bool) (ps : list Pptx.Paragraph) (bs : list str) :
    list Pptx.Paragraph :=
  match bs with
  | [] => ps
  | b :: rest => after_bullets false (bullet_step first b ps) rest
  end.

Definition title_slide (payload : PresentationPayload) : Pptx.Slide :=
  {| Pptx.slide_layout := Pptx.title_slide_layout;
     Pptx.placeholders :=
       <[O := text_shape Pptx.CENTER_TITLE (topic payload)]>
         (<[1 := text_shape Pptx.SUBTITLE (or_else (author payload) default_subtitle)]> ∅) |}.

Definition content_slide (s : Slide) : Pptx.Slide :=
  {| Pptx.slide_layout := Pptx.title_and_content_layout;
     Pptx.placeholders :=
       <[O := text_shape Pptx.TITLE (title s)]>
         (<[1 := {| Pptx.ph_type := Pptx.OBJECT;
                    Pptx.paragraphs :=
                      after_bullets true [Pptx.empty_paragraph] (bullets s) |}]> ∅) |}.

Definition document (payload : PresentationPayload) : Pptx.Presentation :=
  {| Pptx.slide_layouts := Pptx.default_layouts;
     Pptx.slides := title_slide payload :: (content_slide <$> slides payload) |}.

(** The response made around the document of [payload]. *)
Definition response (payload : PresentationPayload) : Starlette.StreamingResponse :=
  {| Starlette.content := document payload;
     Starlette.status_code := 200;
     Starlette.media_type := pptx_media_type;
     Starlette.raw_headers :=
       [ ("content-disposition", content_disposition (filename_of (topic payload)));
         ("content-type", pptx_media_type) ] |}.

End Document.

(* ===================================================================== *)
(** * Sample inputs *)
(* ===================================================================== *)

Module Samples.

Import Generator.

(** [{"topic": "My Talk", "slides": [{"title": "Intro", "bullets": ["A", "B"]}],
     "author": "Jo"}] *)
Definition slide_intro : Slide :=
  {| title := u "Intro"; bullets := [u "A"; u "B"] |}.

Definition payload_my_talk : PresentationPayload :=
  {| topic := u "My Talk"; slides := [slide_intro]; author := Some (u "Jo") |}.

(** The same talk, its only slide without bullets. *)
Definition payload_empty_bullets : PresentationPayload :=
  {| topic := u "My Talk";
     slides := [ {| title := u "Intro"; bullets := [] |} ];
     author := Some (u "Jo") |}.

(** [{"topic": "My Talk", "slides": [], "author": ""}] *)
Definition payload_empty_author : PresentationPayload :=
  {| topic := u "My Talk"; slides := []; author := Some [] |}.




(** Two environments that set both variables, to different values. *)
Definition environ_alpha : gmap string str :=
  {[ "DATABASE_URL" := u "mongodb://alpha:27017";
     "DATABASE_NAME" := u "alpha" ]}.

Definition environ_beta : gmap string str :=
  {[ "DATABASE_URL" := u "mongodb://beta:27017";
     "DATABASE_NAME" := u "beta" ]}.

(** A topic that holds U+FFFF, and the topic "Йога". *)
Definition payload_unstorable : PresentationPayload :=
  {| topic := [65535%N]; slides := []; author := None |}.

Definition payload_cyrillic : PresentationPayload :=
  {| topic := [1049%N; 1086%N; 1075%N; 1072%N]; slides := []; author := None |}.


End Samples.

(* ===================================================================== *)
(** * Running the monad *)
(* ===================================================================== *)

Lemma bind_Return {S A B} (m : M S A) (k : A -> M S B) s a s' :
  m s = (Return a, s') → bind m k s = k a s'.
Proof. intros H. unfold bind. by rewrite H. Qed.

Lemma bind_raises {S A B} (m : M S A) (k : A -> M S B) s :
  raises_ValueError m s → raises_ValueError (bind m k) s.
Proof.
  intros (e & s' & H & He). exists e, s'. unfold bind. by rewrite H.
Qed.

Lemma bind_Return_raises {S A B} (m : M S A) (k : A -> M S B) s a s' :
  m s = (Return a, s') → raises_ValueError (k a) s' → raises_ValueError (bind m k) s.
Proof.
  intros H (e & s'' & Hk & He). exists e, s''. by rewrite (bind_Return _ _ _ _ _ H).
Qed.

(* ===================================================================== *)
(** * Strings: splitting, escaping, what lxml accepts *)
(* ===================================================================== *)

Section strings.
Import Pptx Document.

Lemma split_on_nonempty is_sep s : split_on is_sep s ≠ [].
Proof.
  destruct s as [|c s]; simpl; [discriminate|].
  destruct (is_sep c); [discriminate|]. by destruct (split_on is_sep s).
Qed.

Lemma split_on_cons is_sep c s :
  split_on is_sep (c :: s)
  = if is_sep c then [] :: split_on is_sep s
    else match split_on is_sep s with
         | piece :: pieces => (c :: piece) :: pieces
         | [] => [[c]]
         end.
Proof. reflexivity. Qed.

(** A property of the characters goes over to the pieces, and back when
    the separators have it. *)
Lemma forallb_split_on (P : codepoint → bool) is_sep s :
  (∀ c, is_sep c = true → P c = true) →
  forallb (forallb P) (split_on is_sep s) = forallb P s.
Proof.
  intros Hsep. induction s as [|c s IH]; [done|].
  rewrite split_on_cons. destruct (is_sep c) eqn:Hc.
  - simpl. by rewrite IH, (Hsep c Hc).
  - destruct (split_on is_sep s) as [|piece pieces] eqn:Hs.
    + by destruct (split_on_nonempty is_sep s).
    + simpl in *. rewrite <- IH. by rewrite andb_assoc.
Qed.

Lemma join_cons_cons sep (p q : str) rest :
  join sep (p :: q :: rest) = p ++ sep ++ join sep (q :: rest).
Proof. reflexivity. Qed.

Lemma join_cons_app sep (pre p : str) rest :
  join sep ((pre ++ p) :: rest) = pre ++ join sep (p :: rest).
Proof. destruct rest; simpl; by rewrite <- ?app_assoc. Qed.

(** Splitting, mapping the pieces character by character and joining them
    again maps the whole string character by character. *)
Lemma join_split_on (h : codepoint → str) is_sep (sep : codepoint) s :
  join [sep] ((fun piece => mjoin (h <$> piece)) <$> split_on is_sep s)
  = mjoin ((fun c => if is_sep c then [sep] else h c) <$> s).
Proof.
  induction s as [|c s IH]; [done|].
  rewrite split_on_cons, fmap_cons. simpl mjoin. rewrite <- IH.
  destruct (is_sep c).
  - destruct (split_on is_sep s) as [|piece pieces] eqn:Hs.
    + by destruct (split_on_nonempty is_sep s).
    + reflexivity.
  - destruct (split_on is_sep s) as [|piece pieces] eqn:Hs.
    + by destruct (split_on_nonempty is_sep s).
    + rewrite !fmap_cons. simpl mjoin. by rewrite join_cons_app.
Qed.

Lemma hex_digit_ok d :
  (d < 16)%N → Pptx.is_surrogate (hex_digit d) = false ∧ xml_char (hex_digit d) = true.
Proof.
  intros Hd. unfold hex_digit, Pptx.is_surrogate, xml_char.
  destruct (N.ltb_spec d 10).
  - split.
    + apply andb_false_intro1. apply N.leb_gt. lia.
    + replace (48 + d <? 128)%N with true by (symmetry; apply N.ltb_lt; lia).
      replace (32 <=? 48 + d)%N with true by (symmetry; apply N.leb_le; lia).
      by rewrite !orb_true_r.
  - split.
    + apply andb_false_intro1. apply N.leb_gt. lia.
    + replace (55 + d <? 128)%N with true by (symmetry; apply N.ltb_lt; lia).
      replace (32 <=? 55 + d)%N with true by (symmetry; apply N.leb_le; lia).
      by rewrite !orb_true_r.
Qed.

Lemma hex_digit_mod_surrogate n : Pptx.is_surrogate (hex_digit (n mod 16)) = false.
Proof. apply hex_digit_ok, N.mod_lt. lia. Qed.

Lemma hex_digit_mod_xml n : xml_char (hex_digit (n mod 16)) = true.
Proof. apply hex_digit_ok, N.mod_lt. lia. Qed.

Lemma escape_ctrl_char_surrogate c :
  existsb Pptx.is_surrogate (escape_ctrl_char c) = Pptx.is_surrogate c.
Proof.
  unfold escape_ctrl_char. destruct (is_escaped_ctrl c) eqn:Hc; [|simpl; by rewrite orb_false_r].
  assert (Hlt : (c <= 31)%N).
  { unfold is_escaped_ctrl in Hc. apply orb_true_iff in Hc as [H|H].
    - apply N.leb_le in H. lia.
    - apply andb_true_iff in H as [_ H]. by apply N.leb_le in H. }
  transitivity false.
  - unfold format_04X. rewrite !existsb_app. simpl.
    by rewrite !hex_digit_mod_surrogate.
  - symmetry. unfold Pptx.is_surrogate. apply andb_false_intro1. apply N.leb_gt. lia.
Qed.

Lemma escape_ctrl_char_xml c :
  forallb xml_char (escape_ctrl_char c) = negb ((c =? 65534)%N || (c =? 65535)%N).
Proof.
  unfold escape_ctrl_char. destruct (is_escaped_ctrl c) eqn:Hc.
  - assert (Hlt : (c <= 31)%N).
    { unfold is_escaped_ctrl in Hc. apply orb_true_iff in Hc as [H|H].
      - apply N.leb_le in H. lia.
      - apply andb_true_iff in H as [_ H]. by apply N.leb_le in H. }
    transitivity true.
    + unfold format_04X. rewrite !forallb_app. simpl.
      by rewrite !hex_digit_mod_xml.
    + symmetry. apply negb_true_iff, orb_false_intro; apply N.eqb_neq; lia.
  - simpl. rewrite andb_true_r. unfold xml_char.
    unfold is_escaped_ctrl in Hc. apply orb_false_iff in Hc as [H1 H2].
    apply N.leb_gt in H1.
    destruct (N.ltb_spec c 128) as [Hlt|Hge]; [|done].
    transitivity true.
    + destruct (N.leb_spec 32 c) as [|Hlow]; [by rewrite !orb_true_r|].
      destruct (N.leb_spec 11 c) as [H11|H11].
      * simpl in H2. apply N.leb_gt in H2. lia.
      * assert (Hc : c = 9%N ∨ c = 10%N) by lia. by destruct Hc as [->| ->].
    + symmetry. apply negb_true_iff, orb_false_intro; apply N.eqb_neq; lia.
Qed.

Lemma escape_ctrl_chars_cons c s :
  escape_ctrl_chars (c :: s) = escape_ctrl_char c ++ escape_ctrl_chars s.
Proof. reflexivity. Qed.

Lemma text_ok_alt s :
  text_ok s
  = negb (existsb Pptx.is_surrogate (escape_ctrl_chars s))
    && forallb xml_char (escape_ctrl_chars s).
Proof.
  induction s as [|c s IH]; [done|].
  rewrite escape_ctrl_chars_cons, existsb_app, forallb_app.
  rewrite escape_ctrl_char_surrogate, escape_ctrl_char_xml.
  simpl. rewrite IH. unfold text_char_ok.
  generalize (existsb Pptx.is_surrogate (escape_ctrl_chars s))
             (forallb xml_char (escape_ctrl_chars s))
             (Pptx.is_surrogate c) ((c =? 65534)%N || (c =? 65535)%N).
  by intros [] [] [] [].
Qed.

(** lxml accepts the escaped form of exactly the strings that are
    [text_ok]. *)
Lemma lxml_utf8_escaped_ok s :
  text_ok s = true → lxml_utf8 (escape_ctrl_chars s) = Return tt.
Proof.
  rewrite text_ok_alt. intros [H1 H2]%andb_true_iff. apply negb_true_iff in H1.
  unfold lxml_utf8. by rewrite H1, H2.
Qed.

Lemma lxml_utf8_escaped_raises s :
  text_ok s = false →
  ∃ e, lxml_utf8 (escape_ctrl_chars s) = Raise e ∧ is_ValueError e = true.
Proof.
  rewrite text_ok_alt. intros H. unfold lxml_utf8.
  destruct (existsb _ _); [eauto|]. simpl in H. rewrite H. eauto.
Qed.

Lemma text_ok_pieces is_sep s :
  (∀ c, is_sep c = true → text_char_ok c = true) →
  forallb text_ok (split_on is_sep s) = text_ok s.
Proof. apply forallb_split_on. Qed.

Lemma is_break_ok c : is_break c = true → text_char_ok c = true.
Proof.
  unfold is_break. intros [H|H]%orb_true_iff; apply N.eqb_eq in H; by subst.
Qed.

Lemma is_newline_ok c : is_newline c = true → text_char_ok c = true.
Proof. unfold is_newline. intros H%N.eqb_eq. by subst. Qed.

End strings.

(* ===================================================================== *)
(** * The library operations on one paragraph and one text frame *)
(* ===================================================================== *)

Section paragraph_ops.
Import Pptx Document.

Lemma run_set_text_ok cs piece lv fs :
  text_ok piece = true →
  run_set_text (length cs) piece
    {| content := cs ++ [Run []]; level := lv; font_size := fs |}
  = (Return tt,
     {| content := cs ++ [Run (escape_ctrl_chars piece)]; level := lv; font_size := fs |}).
Proof.
  intros Hok. unfold run_set_text, bind, lift, modify, with_content.
  rewrite (lxml_utf8_escaped_ok _ Hok). simpl.
  rewrite insert_app_r_alt by lia. by rewrite Nat.sub_diag.
Qed.

Lemma run_set_text_raises r piece p :
  text_ok piece = false → raises_ValueError (run_set_text r piece) p.
Proof.
  intros Hbad. destruct (lxml_utf8_escaped_raises _ Hbad) as (e & He & Hcls).
  exists e, p. unfold run_set_text, bind, lift. by rewrite He.
Qed.

Lemma append_piece_ok idx piece p :
  text_ok piece = true →
  append_piece idx piece p
  = (Return (S idx),
     with_content
       (fun cs => cs ++ (if (0 <? idx)%nat then [LineBreak] else [])
                     ++ (if truthy piece then [Run (escape_ctrl_chars piece)] else []))
       p).
Proof.
  intros Hok. destruct p as [cs lv fs]. unfold append_piece.
  destruct (0 <? idx)%nat, (truthy piece) eqn:Ht;
    unfold bind, p_add_br, p_add_r, ret, get, modify, with_content; simpl.
  - rewrite (run_set_text_ok (cs ++ [LineBreak]) piece lv fs Hok).
    by rewrite <- app_assoc.
  - reflexivity.
  - by rewrite (run_set_text_ok cs piece lv fs Hok).
  - by rewrite app_nil_r.
Qed.

Lemma append_piece_raises idx piece p :
  text_ok piece = false → raises_ValueError (append_piece idx piece) p.
Proof.
  intros Hbad. unfold append_piece.
  assert (Ht : truthy piece = true) by (by destruct piece).
  rewrite Ht.
  assert (Hbr : ∃ p', (if (0 <? idx)%nat then p_add_br else ret tt) p = (Return tt, p')).
  { destruct (0 <? idx)%nat; eexists; reflexivity. }
  destruct Hbr as [p' Hbr].
  eapply bind_Return_raises; [exact Hbr|]. apply bind_raises.
  eapply bind_Return_raises; [reflexivity|]. by apply run_set_text_raises.
Qed.

Lemma append_pieces_ok pieces : ∀ idx p,
  forallb text_ok pieces = true →
  for_each pieces idx append_piece p
  = (Return (idx + length pieces)%nat,
     with_content (fun cs => cs ++ pieces_children (negb (0 <? idx)%nat) pieces) p).
Proof.
  induction pieces as [|piece pieces IH]; intros idx p Hok.
  - simpl. unfold ret. rewrite Nat.add_0_r. f_equal. destruct p; unfold with_content; simpl.
    by rewrite app_nil_r.
  - simpl in Hok. apply andb_true_iff in Hok as [Hp Hrest].
    cbn [for_each]. erewrite bind_Return; [|by apply append_piece_ok].
    rewrite (IH (S idx) _ Hrest). f_equal; [f_equal; simpl; lia|].
    destruct p as [cs lv fs]. unfold with_content; simpl.
    f_equal. rewrite <- !app_assoc. f_equal.
    by destruct (0 <? idx)%nat.
Qed.

Lemma append_pieces_raises pieces : ∀ idx p,
  forallb text_ok pieces = false →
  raises_ValueError (for_each pieces idx append_piece) p.
Proof.
  induction pieces as [|piece pieces IH]; intros idx p Hbad; [discriminate|].
  cbn [for_each]. destruct (text_ok piece) eqn:Hp.
  - eapply bind_Return_raises; [by apply append_piece_ok|].
    apply IH. simpl in Hbad. by rewrite Hp in Hbad.
  - apply bind_raises. by apply append_piece_raises.
Qed.

Lemma p_append_text_ok s p :
  text_ok s = true →
  p_append_text s p = (Return tt, with_content (fun cs => cs ++ text_children s) p).
Proof.
  intros Hok. unfold p_append_text.
  erewrite bind_Return; [reflexivity|].
  rewrite append_pieces_ok; [reflexivity|].
  rewrite text_ok_pieces; [done|apply is_break_ok].
Qed.

Lemma p_append_text_raises s p :
  text_ok s = false → raises_ValueError (p_append_text s) p.
Proof.
  intros Hbad. unfold p_append_text. apply bind_raises, append_pieces_raises.
  rewrite text_ok_pieces; [done|apply is_break_ok].
Qed.

Lemma p_set_text_ok s p :
  text_ok s = true →
  p_set_text s p
  = (Return tt,
     {| content := text_children s; level := level p; font_size := font_size p |}).
Proof.
  intros Hok. unfold p_set_text. erewrite bind_Return; [|reflexivity].
  by rewrite p_append_text_ok.
Qed.

Lemma p_set_text_raises s p :
  text_ok s = false → raises_ValueError (p_set_text s) p.
Proof.
  intros Hbad. unfold p_set_text.
  eapply bind_Return_raises; [reflexivity|]. by apply p_append_text_raises.
Qed.

End paragraph_ops.

Section frame_ops.
Import Pptx Document.

Lemma at_paragraph_Some {A} k (m : M Paragraph A) sh p :
  paragraphs sh !! k = Some p →
  at_paragraph k m sh
  = ((m p).1, with_paragraphs (fun ps => <[k := (m p).2]> ps) sh).
Proof. intros H. unfold at_paragraph, zoom. rewrite H. by destruct (m p). Qed.

Lemma at_paragraph_raises {A} k (m : M Paragraph A) sh p :
  paragraphs sh !! k = Some p → raises_ValueError m p →
  raises_ValueError (at_paragraph k m) sh.
Proof.
  intros H (e & p' & Hm & He). eexists e, _.
  rewrite (at_paragraph_Some _ _ _ _ H), Hm. done.
Qed.

Lemma add_line_ok line ty ps :
  text_ok line = true →
  (p <- tf_add_p ;; at_paragraph p (p_append_text line))%py
    {| ph_type := ty; paragraphs := ps |}
  = (Return tt, {| ph_type := ty; paragraphs := ps ++ [line_paragraph line] |}).
Proof.
  intros Hok. erewrite bind_Return; [|reflexivity]. simpl.
  erewrite at_paragraph_Some; [|by apply list_lookup_middle].
  rewrite (p_append_text_ok _ _ Hok). unfold with_paragraphs; simpl.
  rewrite insert_app_r_alt by lia. by rewrite Nat.sub_diag.
Qed.

Lemma add_line_raises line sh :
  text_ok line = false →
  raises_ValueError (p <- tf_add_p ;; at_paragraph p (p_append_text line))%py sh.
Proof.
  intros Hbad. eapply bind_Return_raises; [reflexivity|].
  eapply at_paragraph_raises; [by apply list_lookup_middle|].
  by apply p_append_text_raises.
Qed.

Lemma add_lines_ok lines : ∀ ty ps,
  forallb text_ok lines = true →
  for_each lines tt
    (fun _ line => p <- tf_add_p ;; at_paragraph p (p_append_text line))%py
    {| ph_type := ty; paragraphs := ps |}
  = (Return tt, {| ph_type := ty; paragraphs := ps ++ (line_paragraph <$> lines) |}).
Proof.
  induction lines as [|line lines IH]; intros ty ps Hok.
  - simpl. unfold ret. by rewrite app_nil_r.
  - simpl in Hok. apply andb_true_iff in Hok as [Hl Hrest].
    cbn [for_each]. erewrite bind_Return; [|by apply add_line_ok].
    rewrite (IH _ _ Hrest). by rewrite fmap_cons, <- app_assoc.
Qed.

Lemma add_lines_raises lines : ∀ sh,
  forallb text_ok lines = false →
  raises_ValueError
    (for_each lines tt
       (fun _ line => p <- tf_add_p ;; at_paragraph p (p_append_text line))%py) sh.
Proof.
  induction lines as [|line lines IH]; intros sh Hbad; [discriminate|].
  cbn [for_each]. destruct (text_ok line) eqn:Hl.
  - destruct sh as [ty ps].
    eapply bind_Return_raises; [by apply add_line_ok|].
    apply IH. simpl in Hbad. by rewrite Hl in Hbad.
  - apply bind_raises. by apply add_line_raises.
Qed.

Lemma tf_set_text_ok s sh :
  text_ok s = true →
  tf_set_text s sh = (Return tt, text_shape (ph_type sh) s).
Proof.
  intros Hok. unfold tf_set_text. erewrite bind_Return; [|reflexivity].
  unfold with_paragraphs. rewrite add_lines_ok; [reflexivity|].
  rewrite text_ok_pieces; [done|apply is_newline_ok].
Qed.

Lemma tf_set_text_raises s sh :
  text_ok s = false → raises_ValueError (tf_set_text s) sh.
Proof.
  intros Hbad. unfold tf_set_text.
  eapply bind_Return_raises; [reflexivity|]. apply add_lines_raises.
  rewrite text_ok_pieces; [done|apply is_newline_ok].
Qed.

Lemma tf_clear_cons sh p ps :
  paragraphs sh = p :: ps →
  tf_clear sh
  = (Return tt,
     {| ph_type := ph_type sh; paragraphs := [with_content (fun _ => []) p] |}).
Proof.
  intros H. unfold tf_clear. erewrite bind_Return; [|reflexivity].
  erewrite at_paragraph_Some; last first.
  { unfold with_paragraphs; simpl. rewrite H. reflexivity. }
  unfold with_paragraphs; simpl. by rewrite H.
Qed.

End frame_ops.

(* ===================================================================== *)
(** * The library operations on the slide added last *)
(* ===================================================================== *)

(** Every reference the generator holds points into the slide it has just
    added.  On a presentation of the form [snoc_slide prs sl] each
    operation works on one placeholder of [sl]. *)

Section last_slide.
Import Pptx Document.

Lemma lookup_shape_last prs sl idx :
  lookup_shape (length (slides prs), idx) (snoc_slide prs sl) = placeholders sl !! idx.
Proof.
  unfold lookup_shape, snoc_slide; simpl.
  by rewrite list_lookup_middle.
Qed.

Lemma update_shape_last prs sl idx f sh :
  placeholders sl !! idx = Some sh →
  update_shape (length (slides prs), idx) f (snoc_slide prs sl)
  = snoc_slide prs (set_shape idx (f sh) sl).
Proof.
  intros Hsh. unfold update_shape, update_slide, snoc_slide; simpl. f_equal.
  rewrite alter_app_r_alt by lia. rewrite Nat.sub_diag. simpl.
  unfold alter_shape, set_shape. do 3 f_equal.
  apply map_eq. intros j. destruct (decide (idx = j)) as [->|Hne].
  - by rewrite lookup_alter_eq, lookup_insert_eq, Hsh.
  - by rewrite lookup_alter_ne, lookup_insert_ne.
Qed.

Lemma set_shape_lookup idx sh sl : placeholders (set_shape idx sh sl) !! idx = Some sh.
Proof. apply lookup_insert_eq. Qed.

Lemma set_shape_set_shape idx a b sl :
  set_shape idx a (set_shape idx b sl) = set_shape idx a sl.
Proof. unfold set_shape; simpl. by rewrite insert_insert_eq. Qed.

Lemma set_shape_id idx sh sl : placeholders sl !! idx = Some sh → set_shape idx sh sl = sl.
Proof. intros H. destruct sl as [lay m]. unfold set_shape; simpl in *. by rewrite insert_id. Qed.

Lemma at_shape_last {A} prs sl idx sh (m : M Shape A) :
  placeholders sl !! idx = Some sh →
  at_shape (length (slides prs), idx) m (snoc_slide prs sl)
  = ((m sh).1, snoc_slide prs (set_shape idx (m sh).2 sl)).
Proof.
  intros H. unfold at_shape, zoom. rewrite lookup_shape_last, H.
  destruct (m sh) as [r sh']. by rewrite (update_shape_last _ _ _ _ _ H).
Qed.

Lemma at_shape_last_raises {A} prs sl idx sh (m : M Shape A) :
  placeholders sl !! idx = Some sh → raises_ValueError m sh →
  raises_ValueError (at_shape (length (slides prs), idx) m) (snoc_slide prs sl).
Proof.
  intros H (e & sh' & Hm & He). eexists e, _.
  rewrite (at_shape_last _ _ _ _ _ H), Hm. done.
Qed.

Lemma shapes_title_last prs sl sh :
  placeholders sl !! 0 = Some sh →
  shapes_title (length (slides prs)) (snoc_slide prs sl)
  = (Return (Some (length (slides prs), 0)), snoc_slide prs sl).
Proof.
  intros H. unfold shapes_title, bind, get.
  by rewrite lookup_shape_last, H.
Qed.

Lemma placeholders_getitem_last prs sl idx sh :
  placeholders sl !! idx = Some sh →
  placeholders_getitem (length (slides prs)) idx (snoc_slide prs sl)
  = (Return (length (slides prs), idx), snoc_slide prs sl).
Proof.
  intros H. unfold placeholders_getitem, bind, get.
  by rewrite lookup_shape_last, H.
Qed.

Lemma shape_set_text_last prs sl idx sh s :
  placeholders sl !! idx = Some sh →
  text_ok s = true →
  shape_set_text (length (slides prs), idx) s (snoc_slide prs sl)
  = (Return tt, snoc_slide prs (set_shape idx (text_shape (ph_type sh) s) sl)).
Proof.
  intros H Hok. unfold shape_set_text.
  by rewrite (at_shape_last _ _ _ _ _ H), (tf_set_text_ok _ _ Hok).
Qed.

Lemma shape_set_text_last_raises prs sl idx sh s :
  placeholders sl !! idx = Some sh →
  text_ok s = false →
  raises_ValueError (shape_set_text (length (slides prs), idx) s) (snoc_slide prs sl).
Proof.
  intros H Hbad. eapply at_shape_last_raises; [done|]. by apply tf_set_text_raises.
Qed.

Lemma paragraphs_getitem_last prs sl idx sh k p :
  placeholders sl !! idx = Some sh →
  paragraphs sh !! k = Some p →
  paragraphs_getitem (length (slides prs), idx) k (snoc_slide prs sl)
  = (Return ((length (slides prs), idx), k), snoc_slide prs sl).
Proof.
  intros H Hp. unfold paragraphs_getitem, bind, get.
  rewrite lookup_shape_last, H. simpl. by rewrite Hp.
Qed.

Lemma text_frame_clear_last prs sl idx sh p ps :
  placeholders sl !! idx = Some sh →
  paragraphs sh = p :: ps →
  text_frame_clear (length (slides prs), idx) (snoc_slide prs sl)
  = (Return tt,
     snoc_slide prs
       (set_shape idx
          {| ph_type := ph_type sh; paragraphs := [with_content (fun _ => []) p] |}
          sl)).
Proof.
  intros H Hps. unfold text_frame_clear.
  by rewrite (at_shape_last _ _ _ _ _ H), (tf_clear_cons _ _ _ Hps).
Qed.

Lemma add_paragraph_last prs sl idx sh :
  placeholders sl !! idx = Some sh →
  add_paragraph (length (slides prs), idx) (snoc_slide prs sl)
  = (Return ((length (slides prs), idx), length (paragraphs sh)),
     snoc_slide prs
       (set_shape idx (with_paragraphs (fun ps => ps ++ [empty_paragraph]) sh) sl)).
Proof.
  intros H. unfold add_paragraph.
  erewrite bind_Return; [reflexivity|]. by rewrite (at_shape_last _ _ _ _ _ H).
Qed.

(** The three assignments to a paragraph of the slide added last. *)
Lemma paragraph_styled_last prs sl idx sh k p b :
  placeholders sl !! idx = Some sh →
  paragraphs sh !! k = Some p →
  text_ok b = true →
  (paragraph_set_text ((length (slides prs), idx), k) b ;;;
   paragraph_set_level ((length (slides prs), idx), k) 0 ;;;
   paragraph_font_set_size ((length (slides prs), idx), k) (Pt 22) ;;;
   ret false)%py (snoc_slide prs sl)
  = (Return false,
     snoc_slide prs
       (set_shape idx (with_paragraphs (fun ps => <[k := styled b p]> ps) sh) sl)).
Proof.
  intros H Hp Hok.
  assert (Hk : k < length (paragraphs sh)) by (by eapply lookup_lt_Some).
  unfold paragraph_set_text, paragraph_set_level, paragraph_font_set_size.
  cbn [fst snd].
  erewrite bind_Return; last first.
  { rewrite (at_shape_last _ _ _ _ _ H), (at_paragraph_Some _ _ _ _ Hp).
    rewrite (p_set_text_ok _ _ Hok). reflexivity. }
  erewrite bind_Return; last first.
  { rewrite (at_shape_last _ _ _ _ _ (set_shape_lookup _ _ _)).
    erewrite at_paragraph_Some;
      [|unfold with_paragraphs; simpl; by apply list_lookup_insert_eq].
    reflexivity. }
  erewrite bind_Return; last first.
  { rewrite (at_shape_last _ _ _ _ _ (set_shape_lookup _ _ _)).
    erewrite at_paragraph_Some;
      [|unfold with_paragraphs; simpl; apply list_lookup_insert_eq;
        by rewrite length_insert].
    reflexivity. }
  unfold ret. f_equal. rewrite !set_shape_set_shape. do 2 f_equal.
  unfold with_paragraphs; simpl. f_equal.
  by rewrite !list_insert_insert_eq.
Qed.

Lemma paragraph_set_text_last_raises prs sl idx sh k p b :
  placeholders sl !! idx = Some sh →
  paragraphs sh !! k = Some p →
  text_ok b = false →
  raises_ValueError (paragraph_set_text ((length (slides prs), idx), k) b)
    (snoc_slide prs sl).
Proof.
  intros H Hp Hbad. unfold paragraph_set_text. cbn [fst snd].
  eapply at_shape_last_raises; [done|].
  eapply at_paragraph_raises; [done|]. by apply p_set_text_raises.
Qed.

End last_slide.

(* ===================================================================== *)
(** * The loops of the generator *)
(* ===================================================================== *)

Section loops.
Import Pptx Generator Document.

Lemma bullet_step_nonempty first b ps : ps ≠ [] → bullet_step first b ps ≠ [].
Proof.
  intros H. unfold bullet_step. destruct first.
  - destruct ps; [done|]. simpl. discriminate.
  - destruct ps; simpl; discriminate.
Qed.

Lemma add_bullet_last prs sl idx sh first b :
  placeholders sl !! idx = Some sh →
  paragraphs sh ≠ [] →
  text_ok b = true →
  add_bullet (length (Pptx.slides prs), idx) first b (snoc_slide prs sl)
  = (Return false,
     snoc_slide prs (set_shape idx (with_paragraphs (bullet_step first b) sh) sl)).
Proof.
  intros H Hne Hok. unfold add_bullet.
  destruct first.
  - destruct (paragraphs sh) as [|p ps] eqn:Hps; [done|].
    erewrite bind_Return; last first.
    { erewrite bind_Return; [reflexivity|].
      eapply paragraphs_getitem_last; [done|]. by rewrite Hps. }
    cbv beta iota zeta.
    rewrite (paragraph_styled_last prs sl idx sh 0 p b H); [|by rewrite Hps|done].
    unfold with_paragraphs, bullet_step. by rewrite Hps.
  - erewrite bind_Return; last first.
    { erewrite bind_Return; [reflexivity|]. by eapply add_paragraph_last. }
    cbv beta iota zeta.
    rewrite (paragraph_styled_last prs _ idx _ (length (paragraphs sh)) empty_paragraph b
               (set_shape_lookup _ _ _));
      [|unfold with_paragraphs; simpl; by apply list_lookup_middle|done].
    rewrite set_shape_set_shape. unfold with_paragraphs, bullet_step; simpl.
    rewrite insert_app_r_alt by lia. by rewrite Nat.sub_diag.
Qed.

Lemma add_bullet_last_raises prs sl idx sh first b :
  placeholders sl !! idx = Some sh →
  paragraphs sh ≠ [] →
  text_ok b = false →
  raises_ValueError (add_bullet (length (Pptx.slides prs), idx) first b)
    (snoc_slide prs sl).
Proof.
  intros H Hne Hbad. unfold add_bullet.
  destruct first.
  - destruct (paragraphs sh) as [|p ps] eqn:Hps; [done|].
    eapply bind_Return_raises.
    { erewrite bind_Return; [reflexivity|].
      eapply paragraphs_getitem_last; [done|]. by rewrite Hps. }
    cbv beta iota zeta. apply bind_raises.
    eapply paragraph_set_text_last_raises; [done| |done]. by rewrite Hps.
  - eapply bind_Return_raises.
    { erewrite bind_Return; [reflexivity|]. by eapply add_paragraph_last. }
    cbv beta iota zeta. apply bind_raises.
    eapply paragraph_set_text_last_raises; [apply set_shape_lookup| |done].
    unfold with_paragraphs; simpl. by apply list_lookup_middle.
Qed.

Lemma bullet_loop_last bs : ∀ prs sl idx sh first,
  placeholders sl !! idx = Some sh →
  paragraphs sh ≠ [] →
  forallb text_ok bs = true →
  ∃ last,
    for_each bs first (add_bullet (length (Pptx.slides prs), idx)) (snoc_slide prs sl)
    = (Return last,
       snoc_slide prs
         (set_shape idx
            {| ph_type := ph_type sh;
               paragraphs := after_bullets first (paragraphs sh) bs |} sl)).
Proof.
  induction bs as [|b bs IH]; intros prs sl idx sh first H Hne Hok; simpl.
  - exists first. unfold ret. do 2 f_equal.
    symmetry. destruct sh. by apply set_shape_id.
  - simpl in Hok. apply andb_true_iff in Hok as [Hb Hrest].
    erewrite bind_Return; [|by apply add_bullet_last].
    destruct (IH prs (set_shape idx (with_paragraphs (bullet_step first b) sh) sl)
                idx (with_paragraphs (bullet_step first b) sh) false) as [last Hl].
    { apply set_shape_lookup. }
    { by apply bullet_step_nonempty. }
    { done. }
    exists last. rewrite Hl. by rewrite set_shape_set_shape.
Qed.

Lemma bullet_loop_last_raises bs : ∀ prs sl idx sh first,
  placeholders sl !! idx = Some sh →
  paragraphs sh ≠ [] →
  forallb text_ok bs = false →
  raises_ValueError
    (for_each bs first (add_bullet (length (Pptx.slides prs), idx))) (snoc_slide prs sl).
Proof.
  induction bs as [|b bs IH]; intros prs sl idx sh first H Hne Hbad; [discriminate|].
  cbn [for_each]. destruct (text_ok b) eqn:Hb.
  - eapply bind_Return_raises; [by apply add_bullet_last|].
    eapply IH; [apply set_shape_lookup|by apply bullet_step_nonempty|].
    simpl in Hbad. by rewrite Hb in Hbad.
  - apply bind_raises. by eapply add_bullet_last_raises.
Qed.

(** One turn of the slide loop: the slide is added and filled, or the
    library raises on its title or on one of its bullets. *)
Lemma add_content_slide_run s prs :
  slide_ok s = true →
  add_content_slide title_and_content_layout s prs
  = (Return tt, snoc_slide prs (content_slide s)).
Proof.
  intros [Ht Hbs]%andb_true_iff. unfold add_content_slide.
  erewrite bind_Return; [|reflexivity].
  erewrite bind_Return; [|by eapply (shapes_title_last prs)].
  erewrite bind_Return; [|reflexivity].
  erewrite bind_Return; [|by eapply (shape_set_text_last prs)].
  erewrite bind_Return; [|by eapply (placeholders_getitem_last prs)].
  erewrite bind_Return; [|by eapply (text_frame_clear_last prs)].
  match goal with
  | |- bind _ _ (snoc_slide _ (set_shape ?i ?sh ?sl)) = _ =>
      destruct (bullet_loop_last (bullets s) prs (set_shape i sh sl) i sh true
                  (set_shape_lookup _ _ _)) as [last Hl]; [discriminate|done|]
  end.
  erewrite bind_Return; [|exact Hl].
  rewrite set_shape_set_shape. reflexivity.
Qed.

Lemma add_content_slide_raises s prs :
  slide_ok s = false →
  raises_ValueError (add_content_slide title_and_content_layout s) prs.
Proof.
  intros Hbad. unfold add_content_slide.
  eapply bind_Return_raises; [reflexivity|].
  eapply bind_Return_raises; [by eapply (shapes_title_last prs)|].
  eapply bind_Return_raises; [reflexivity|].
  destruct (text_ok (title s)) eqn:Ht.
  - eapply bind_Return_raises; [by eapply (shape_set_text_last prs)|].
    eapply bind_Return_raises; [by eapply (placeholders_getitem_last prs)|].
    eapply bind_Return_raises; [by eapply (text_frame_clear_last prs)|].
    apply bind_raises.
    eapply bullet_loop_last_raises; [apply set_shape_lookup|discriminate|].
    unfold slide_ok in Hbad. by rewrite Ht in Hbad.
  - apply bind_raises. by eapply (shape_set_text_last_raises prs).
Qed.

Lemma slide_loop_run ss : ∀ prs,
  forallb slide_ok ss = true →
  for_each ss tt (fun _ s => add_content_slide title_and_content_layout s) prs
  = (Return tt,
     {| slide_layouts := slide_layouts prs;
        Pptx.slides := Pptx.slides prs ++ (content_slide <$> ss) |}).
Proof.
  induction ss as [|s ss IH]; intros prs Hok; simpl.
  - unfold ret. rewrite app_nil_r. by destruct prs.
  - simpl in Hok. apply andb_true_iff in Hok as [Hs Hrest].
    erewrite bind_Return; [|by apply add_content_slide_run].
    rewrite (IH _ Hrest). unfold snoc_slide; simpl. by rewrite <- app_assoc.
Qed.

Lemma slide_loop_raises ss : ∀ prs,
  forallb slide_ok ss = false →
  raises_ValueError
    (for_each ss tt (fun _ s => add_content_slide title_and_content_layout s)) prs.
Proof.
  induction ss as [|s ss IH]; intros prs Hbad; [discriminate|].
  cbn [for_each]. destruct (slide_ok s) eqn:Hs.
  - eapply bind_Return_raises; [by apply add_content_slide_run|].
    apply IH. simpl in Hbad. by rewrite Hs in Hbad.
  - apply bind_raises. by apply add_content_slide_raises.
Qed.

(** On a payload all of whose strings can be stored, the handler builds
    the document of the closed form. *)
Theorem built_document_eq payload :
  payload_ok payload = true →
  build_presentation payload new_Presentation = (Return tt, document payload).
Proof.
  intros [[Ht Ha]%andb_true_iff Hss]%andb_true_iff. unfold build_presentation.
  erewrite bind_Return; [|reflexivity].
  erewrite bind_Return; [|reflexivity].
  erewrite bind_Return; [|by eapply (shapes_title_last new_Presentation)].
  erewrite bind_Return; [|reflexivity].
  erewrite bind_Return; [|by eapply (shape_set_text_last new_Presentation)].
  erewrite bind_Return; [|by eapply (placeholders_getitem_last new_Presentation)].
  erewrite bind_Return; [|by eapply (shape_set_text_last new_Presentation)].
  erewrite bind_Return; [|reflexivity].
  rewrite (slide_loop_run _ _ Hss). reflexivity.
Qed.

(** On any other payload it raises in the library, and builds nothing. *)
Theorem build_presentation_raises payload :
  payload_ok payload = false →
  raises_ValueError (build_presentation payload) new_Presentation.
Proof.
  intros Hbad. unfold build_presentation.
  eapply bind_Return_raises; [reflexivity|].
  eapply bind_Return_raises; [reflexivity|].
  eapply bind_Return_raises; [by eapply (shapes_title_last new_Presentation)|].
  eapply bind_Return_raises; [reflexivity|].
  destruct (text_ok (topic payload)) eqn:Ht; last first.
  { apply bind_raises. by eapply (shape_set_text_last_raises new_Presentation). }
  eapply bind_Return_raises; [by eapply (shape_set_text_last new_Presentation)|].
  eapply bind_Return_raises; [by eapply (placeholders_getitem_last new_Presentation)|].
  destruct (text_ok (or_else (author payload) default_subtitle)) eqn:Ha; last first.
  { apply bind_raises. by eapply (shape_set_text_last_raises new_Presentation). }
  eapply bind_Return_raises; [by eapply (shape_set_text_last new_Presentation)|].
  eapply bind_Return_raises; [reflexivity|].
  apply slide_loop_raises. unfold payload_ok in Hbad. by rewrite Ht, Ha in Hbad.
Qed.

End loops.

(* ===================================================================== *)
(** * Properties of the generated document *)
(* ===================================================================== *)

Section document_facts.
Import Generator Document.

(** ** What is read back *)

Lemma pieces_children_text_rest pieces :
  mjoin (Pptx.child_text <$> pieces_children false pieces)
  = mjoin ((fun piece => [vtab] ++ Pptx.escape_ctrl_chars piece) <$> pieces).
Proof.
  induction pieces as [|piece pieces IH]; [done|].
  cbn [pieces_children]. rewrite !fmap_app, !join_app, IH.
  destruct piece; simpl; rewrite ?app_nil_r; reflexivity.
Qed.

Lemma join_cons_rest (sep x : str) xs :
  join sep (x :: xs) = x ++ mjoin ((fun p => sep ++ p) <$> xs).
Proof.
  revert x. induction xs as [|y ys IH]; intros x.
  - simpl. by rewrite app_nil_r.
  - rewrite join_cons_cons, IH, fmap_cons. change (mjoin (?a :: ?l)) with (a ++ mjoin l).
    by rewrite <- app_assoc.
Qed.

Lemma text_children_text s :
  mjoin (Pptx.child_text <$> text_children s) = paragraph_readback s.
Proof.
  unfold text_children, paragraph_readback.
  rewrite <- (join_split_on Pptx.escape_ctrl_char Pptx.is_break vtab s).
  destruct (split_on Pptx.is_break s) as [|piece pieces].
  - reflexivity.
  - cbn [pieces_children]. rewrite !fmap_app, !join_app, pieces_children_text_rest.
    rewrite fmap_cons, join_cons_rest, <- list_fmap_compose.
    destruct piece; simpl; rewrite ?app_nil_r; reflexivity.
Qed.

Lemma line_paragraph_text line :
  Pptx.paragraph_text (line_paragraph line) = paragraph_readback line.
Proof. apply text_children_text. Qed.

Lemma text_shape_text ty s : Pptx.shape_text (text_shape ty s) = shape_readback s.
Proof.
  unfold Pptx.shape_text, text_shape, shape_readback. simpl.
  rewrite <- list_fmap_compose.
  rewrite (list_fmap_ext _ paragraph_readback (split_on Pptx.is_newline s))
    by (intros; apply line_paragraph_text).
  unfold paragraph_readback.
  rewrite (join_split_on
             (fun c => if Pptx.is_break c then [vtab] else Pptx.escape_ctrl_char c)
             Pptx.is_newline newline s).
  f_equal. apply list_fmap_ext. intros _ c _.
  unfold Pptx.is_newline, Pptx.is_break.
  destruct (N.eqb_spec c newline) as [->|Hn]; [reflexivity|].
  destruct (N.eqb_spec c vtab) as [->|Hv]; reflexivity.
Qed.

Lemma mjoin_singletons (s : str) (f : codepoint → str) :
  (∀ c, c ∈ s → f c = [c]) → mjoin (f <$> s) = s.
Proof.
  induction s as [|c s IH]; intros H; [done|].
  rewrite fmap_cons. simpl. rewrite (H c) by apply list_elem_of_here.
  rewrite IH; [done|]. intros d Hd. apply H. by apply list_elem_of_further.
Qed.

(** A text that holds no escaped control is read back from a shape as it
    was assigned. *)
Lemma shape_readback_id s : no_escape s = true → shape_readback s = s.
Proof.
  intros H. apply mjoin_singletons. intros c Hc.
  unfold no_escape in H. rewrite forallb_forall in H.
  specialize (H c (proj1 (list_elem_of_In _ _) Hc)).
  destruct (Pptx.is_break c); [done|]. simpl in H.
  unfold Pptx.escape_ctrl_char. by destruct (Pptx.is_escaped_ctrl c).
Qed.

(** A text that holds no escaped control and no line feed is read back
    from a paragraph as it was assigned. *)
Lemma paragraph_readback_id s : one_line s = true → paragraph_readback s = s.
Proof.
  intros H. apply mjoin_singletons. intros c Hc.
  unfold one_line in H. rewrite forallb_forall in H.
  specialize (H c (proj1 (list_elem_of_In _ _) Hc)).
  apply andb_true_iff in H as [Hn H]. apply negb_true_iff, N.eqb_neq in Hn.
  unfold Pptx.is_break in *.
  destruct (N.eqb_spec c newline); [done|]. simpl in *.
  destruct (N.eqb_spec c vtab) as [->|]; [done|]. simpl in H.
  unfold Pptx.escape_ctrl_char. by destruct (Pptx.is_escaped_ctrl c).
Qed.

(** ** The bullets *)

Lemma after_bullets_appends ps bs :
  after_bullets false ps bs = ps ++ ((fun b => styled b Pptx.empty_paragraph) <$> bs).
Proof.
  revert ps. induction bs as [|b bs IH]; intros ps; simpl.
  - by rewrite app_nil_r.
  - rewrite IH. unfold bullet_step. by rewrite <- app_assoc.
Qed.

Lemma after_bullets_first q b bs :
  after_bullets true [q] (b :: bs) = (fun b => styled b Pptx.empty_paragraph) <$> (b :: bs).
Proof. simpl. by rewrite after_bullets_appends. Qed.

Lemma content_slide_lookup payload N s :
  slides payload !! N = Some s →
  Pptx.slides (document payload) !! S N = Some (content_slide s).
Proof. intros H. simpl. by rewrite list_lookup_fmap, H. Qed.

(** ** The file name *)

Lemma replace_length old new s : length (replace old new s) = length s.
Proof. unfold replace. by rewrite length_fmap. Qed.

Lemma replace_lookup old new s i :
  replace old new s !! i = (fun c => if decide (c = old) then new else c) <$> s !! i.
Proof.
  unfold replace. rewrite list_lookup_fmap. destruct (s !! i) as [c|]; [|done]. simpl.
  f_equal. destruct (N.eqb_spec c old); by case_decide.
Qed.

Lemma replace_absent old new s : old ∉ s → replace old new s = s.
Proof.
  unfold replace. induction s as [|c s IH]; [done|]. intros Hn.
  apply not_elem_of_cons in Hn as [Hc Hs]. rewrite fmap_cons, (IH Hs).
  cbn beta. destruct (N.eqb_spec c old); congruence.
Qed.

(** ** The response *)

Lemma latin1_ok_content_disposition topic :
  latin1_ok (content_disposition (filename_of topic)) = latin1_ok topic.
Proof.
  unfold latin1_ok, content_disposition, filename_of, replace.
  rewrite !forallb_app. simpl. rewrite !andb_true_r.
  induction topic as [|c topic IH]; [done|].
  rewrite fmap_cons. simpl. rewrite IH. f_equal.
  destruct (N.eqb_spec c space) as [->|]; reflexivity.
Qed.

Lemma new_StreamingResponse_ok prs topic :
  latin1_ok topic = true →
  Starlette.new_StreamingResponse prs pptx_media_type
    [ ("Content-Disposition", content_disposition (filename_of topic)) ]
  = Return {| Starlette.content := prs;
              Starlette.status_code := 200;
              Starlette.media_type := pptx_media_type;
              Starlette.raw_headers :=
                [ ("content-disposition", content_disposition (filename_of topic));
                  ("content-type", pptx_media_type) ] |}.
Proof.
  intros H. rewrite <- latin1_ok_content_disposition in H.
  unfold Starlette.new_StreamingResponse, Starlette.init_headers,
    Starlette.encode_headers, Starlette.encode_latin1.
  unfold latin1_ok in H. rewrite H. reflexivity.
Qed.

Lemma new_StreamingResponse_raises prs topic :
  latin1_ok topic = false →
  ∃ e, Starlette.new_StreamingResponse prs pptx_media_type
         [ ("Content-Disposition", content_disposition (filename_of topic)) ]
       = Raise e
       ∧ exn_cls e = UnicodeEncodeError.
Proof.
  intros H. rewrite <- latin1_ok_content_disposition in H.
  unfold Starlette.new_StreamingResponse, Starlette.init_headers,
    Starlette.encode_headers, Starlette.encode_latin1.
  unfold latin1_ok in H. rewrite H. eauto.
Qed.

(** The handler in three cases: it returns the response of the closed
    form; or the document is built and the response refuses the header;
    or the library refuses a string and no document is built. *)
Lemma generate_pptx_Return payload :
  payload_ok payload = true → latin1_ok (topic payload) = true →
  generate_pptx payload = Return (response payload).
Proof.
  intros Hok Hl. unfold generate_pptx. rewrite (built_document_eq _ Hok).
  by apply new_StreamingResponse_ok.
Qed.

Lemma generate_pptx_header_raises payload :
  payload_ok payload = true → latin1_ok (topic payload) = false →
  ∃ e, generate_pptx payload = Raise e ∧ exn_cls e = UnicodeEncodeError.
Proof.
  intros Hok Hl. unfold generate_pptx. rewrite (built_document_eq _ Hok).
  by apply new_StreamingResponse_raises.
Qed.

Lemma generate_pptx_library_raises payload :
  payload_ok payload = false →
  ∃ e, generate_pptx payload = Raise e ∧ is_ValueError e = true.
Proof.
  intros Hbad. destruct (build_presentation_raises _ Hbad) as (e & prs & H & He).
  exists e. unfold generate_pptx. by rewrite H.
Qed.

End document_facts.

Section generator_claims.
Import Generator Document Samples.

(** C1, as stated, fails on a payload the library cannot store: for the
    topic U+FFFF the handler raises [ValueError] on line 98 and produces no
    document. *)
Lemma generate_pptx_unstorable_topic :
  ∃ e prs,
    build_presentation payload_unstorable Pptx.new_Presentation = (Raise e, prs)
    ∧ exn_cls e = ValueError
    ∧ generate_pptx payload_unstorable = Raise e.
Proof. eexists _, _. split; [reflexivity|]. split; reflexivity. Qed.

(** C1, amended.  For every payload whose strings hold no surrogate, U+FFFE
    or U+FFFF, the document the handler builds has [len(slides) + 1]
    slides: first a slide of the title layout, then, in the order of
    [payload.slides], one slide of the bullet layout per entry, each
    titled as its text is read back; when the topic is latin-1 the handler
    returns a response that streams this document. *)
Theorem generate_pptx_slide_sequence (payload : PresentationPayload) :
  payload_ok payload = true →
  ∃ prs,
    build_presentation payload Pptx.new_Presentation = (Return tt, prs)
    ∧ length (Pptx.slides prs) = S (length (slides payload))
    ∧ (fun sl => (Pptx.layout_name (Pptx.slide_layout sl), Pptx.slide_title_text sl))
        <$> Pptx.slides prs
      = ("Title Slide", Some (shape_readback (topic payload)))
        :: ((fun s => ("Title and Content", Some (shape_readback (title s))))
              <$> slides payload)
    ∧ (latin1_ok (topic payload) = true →
       ∃ r, generate_pptx payload = Return r ∧ Starlette.content r = prs).
Proof.
  intros Hok. exists (document payload). split; [by apply built_document_eq|].
  split; [simpl; by rewrite length_fmap|]. split.
  - simpl. f_equal.
    + unfold Pptx.slide_title_text, title_slide; simpl.
      rewrite lookup_insert_eq. simpl. by rewrite text_shape_text.
    + rewrite <- list_fmap_compose. apply list_fmap_ext. intros _ s _. simpl.
      unfold Pptx.slide_title_text; simpl.
      rewrite lookup_insert_eq. simpl. by rewrite text_shape_text.
  - intros Hl. exists (response payload). split; [by apply generate_pptx_Return|done].
Qed.

Lemma generate_pptx_slide_sequence_my_talk :
  payload_ok payload_my_talk = true
  ∧ ∃ prs,
      build_presentation payload_my_talk Pptx.new_Presentation = (Return tt, prs)
      ∧ length (Pptx.slides prs) = 2
      ∧ (fun sl => (Pptx.layout_name (Pptx.slide_layout sl), Pptx.slide_title_text sl))
          <$> Pptx.slides prs
        = [ ("Title Slide", Some (u "My Talk")); ("Title and Content", Some (u "Intro")) ]
      ∧ (latin1_ok (topic payload_my_talk) = true →
         ∃ r, generate_pptx payload_my_talk = Return r ∧ Starlette.content r = prs).
Proof.
  split; [reflexivity|].
  apply (generate_pptx_slide_sequence payload_my_talk). reflexivity.
Defined.

(** C2, as stated, fails on a slide without bullets: [tf.clear()] leaves one
    empty paragraph in the body and the bullet loop never touches it, so the
    body has one paragraph where the slide has zero bullets. *)
Lemma body_paragraphs_empty_bullets :
  ∃ r sl body s,
    generate_pptx payload_empty_bullets = Return r
    ∧ slides payload_empty_bullets !! 0 = Some s
    ∧ Pptx.slides (Starlette.content r) !! 1 = Some sl
    ∧ Pptx.placeholders sl !! 1 = Some body
    ∧ bullets s = []
    ∧ Pptx.paragraphs body = [Pptx.empty_paragraph]
    ∧ length (Pptx.paragraphs body) ≠ length (bullets s).
Proof.
  eexists _, _, _, _. split; [by apply generate_pptx_Return|].
  split; [reflexivity|]. split; [reflexivity|]. split; [reflexivity|].
  split; [reflexivity|]. split; [reflexivity|]. simpl. lia.
Qed.

(** C2, amended.  For every payload whose strings hold no surrogate, U+FFFE
    or U+FFFF, and every index [N] into its slides, the body placeholder of
    content slide [N] holds, when the slide has at least one bullet,
    exactly [len(bullets)] paragraphs in the submitted order, each at level
    0 with font size [Pt(22)], whose texts are the bullets as a paragraph
    reads them back: unchanged when they hold no line feed and no escaped
    control, else with every line feed a vertical tab and every escaped
    control its [_xHHHH_]; when the slide has no bullet, the body holds the
    single empty paragraph of a cleared text frame.  When the topic is
    latin-1 the handler returns a response that streams this document. *)
Theorem generate_pptx_body_paragraphs (payload : PresentationPayload) (N : nat) (s : Slide) :
  payload_ok payload = true →
  slides payload !! N = Some s →
  ∃ prs sl body,
    build_presentation payload Pptx.new_Presentation = (Return tt, prs)
    ∧ (latin1_ok (topic payload) = true →
       ∃ r, generate_pptx payload = Return r ∧ Starlette.content r = prs)
    ∧ Pptx.slides prs !! S N = Some sl
    ∧ Pptx.placeholders sl !! 1 = Some body
    ∧ match bullets s with
      | [] => Pptx.paragraphs body = [Pptx.empty_paragraph]
      | _ :: _ =>
          length (Pptx.paragraphs body) = length (bullets s)
          ∧ Pptx.paragraph_text <$> Pptx.paragraphs body
            = paragraph_readback <$> bullets s
          ∧ (forallb one_line (bullets s) = true →
             Pptx.paragraph_text <$> Pptx.paragraphs body = bullets s)
          ∧ Forall (fun p => Pptx.level p = 0%Z ∧ Pptx.font_size p = Some (Pptx.Pt 22))
              (Pptx.paragraphs body)
      end.
Proof.
  intros Hok Hs. eexists _, _, _. split; [by apply built_document_eq|].
  split.
  { intros Hl. exists (response payload). split; [by apply generate_pptx_Return|done]. }
  split; [by apply content_slide_lookup|]. split; [reflexivity|]. simpl.
  destruct (bullets s) as [|b bs] eqn:Hbs; [reflexivity|].
  rewrite after_bullets_first.
  assert (Htexts : Pptx.paragraph_text
                     <$> ((fun b => styled b Pptx.empty_paragraph) <$> b :: bs)
                   = paragraph_readback <$> b :: bs).
  { rewrite <- list_fmap_compose. apply list_fmap_ext. intros _ x _.
    apply text_children_text. }
  split; [by rewrite length_fmap|]. split; [exact Htexts|]. split.
  - intros Hone. rewrite Htexts.
    rewrite <- (list_fmap_id (b :: bs)) at 2. apply list_fmap_ext.
    intros i x Hx. apply paragraph_readback_id.
    rewrite forallb_forall in Hone. apply Hone, list_elem_of_In.
    by eapply list_elem_of_lookup_2.
  - apply Forall_fmap, Forall_true. done.
Qed.

Lemma generate_pptx_body_paragraphs_my_talk :
  payload_ok payload_my_talk = true
  ∧ slides payload_my_talk !! 0 = Some slide_intro
  ∧ ∃ prs sl body,
      build_presentation payload_my_talk Pptx.new_Presentation = (Return tt, prs)
      ∧ Pptx.slides prs !! 1 = Some sl
      ∧ Pptx.placeholders sl !! 1 = Some body
      ∧ length (Pptx.paragraphs body) = 2
      ∧ Pptx.paragraph_text <$> Pptx.paragraphs body = [u "A"; u "B"].
Proof.
  split; [reflexivity|]. split; [reflexivity|].
  destruct (generate_pptx_body_paragraphs payload_my_talk 0 slide_intro)
    as (prs & sl & body & Hb & _ & Hsl & Hbody & Hlen & Htexts & _); [reflexivity..|].
  exists prs, sl, body. repeat split; assumption.
Defined.

(** C3, as stated, fails on a topic outside latin-1: for the topic "Йога"
    the document is built, and building the response around it raises
    [UnicodeEncodeError], so no response carries the header. *)
Lemma generate_pptx_cyrillic_topic :
  ∃ e prs,
    build_presentation payload_cyrillic Pptx.new_Presentation = (Return tt, prs)
    ∧ generate_pptx payload_cyrillic = Raise e
    ∧ exn_cls e = UnicodeEncodeError.
Proof. eexists _, _. split; [reflexivity|]. split; reflexivity. Qed.

(** C3, amended.  For every payload whose strings hold no surrogate, U+FFFE
    or U+FFFF and whose topic is latin-1 (with or without spaces), the
    response's [Content-Disposition] header is
    [attachment; filename="<filename>"], where the filename is the topic
    with every space replaced by an underscore, followed by [.pptx]. *)
Theorem generate_pptx_content_disposition (payload : PresentationPayload) :
  payload_ok payload = true →
  latin1_ok (topic payload) = true →
  ∃ r filename,
    generate_pptx payload = Return r
    ∧ Starlette.header "Content-Disposition" r
      = Some (u "attachment; filename=" ++ [dquote] ++ filename ++ [dquote])
    ∧ filename
      = ((fun c => if decide (c = space) then underscore else c) <$> topic payload)
        ++ u ".pptx"
    ∧ length filename = length (topic payload) + 5
    ∧ (space ∉ take (length (topic payload)) filename)
    ∧ (space ∉ topic payload → filename = topic payload ++ u ".pptx").
Proof.
  intros Hok Hl.
  exists (response payload), (filename_of (topic payload)).
  split; [by apply generate_pptx_Return|]. split; [reflexivity|].
  assert (Heq : replace space underscore (topic payload)
                = (fun c => if decide (c = space) then underscore else c)
                    <$> topic payload).
  { apply list_eq. intros i. by rewrite replace_lookup, list_lookup_fmap. }
  unfold filename_of. split; [by rewrite Heq|]. split.
  { rewrite length_app, replace_length. reflexivity. }
  split.
  { rewrite <- (replace_length space underscore (topic payload)).
    rewrite take_app_length. rewrite Heq.
    intros Hin. apply list_elem_of_fmap in Hin as (c & Hc & _).
    case_decide; [by vm_compute in Hc | congruence]. }
  intros Hn. by rewrite replace_absent.
Qed.

Lemma generate_pptx_content_disposition_my_talk :
  payload_ok payload_my_talk = true
  ∧ latin1_ok (topic payload_my_talk) = true
  ∧ ∃ r, generate_pptx payload_my_talk = Return r
         ∧ Starlette.header "Content-Disposition" r
           = Some (u "attachment; filename=" ++ [dquote] ++ u "My_Talk.pptx" ++ [dquote]).
Proof.
  split; [reflexivity|]. split; [reflexivity|].
  destruct (generate_pptx_content_disposition payload_my_talk)
    as (r & filename & Hr & Hh & Hf & _); [reflexivity..|].
  exists r. split; [exact Hr|]. rewrite Hh, Hf. reflexivity.
Defined.

(** C4, as stated, fails on an author that is present and empty:
    [payload.author or "..."] takes the default for the empty string too. *)
Lemma subtitle_empty_author :
  ∃ r sl sub a,
    generate_pptx payload_empty_author = Return r
    ∧ author payload_empty_author = Some a
    ∧ Pptx.slides (Starlette.content r) !! 0 = Some sl
    ∧ Pptx.placeholders sl !! 1 = Some sub
    ∧ Pptx.shape_text sub = u "Auto-generated presentation"
    ∧ Pptx.shape_text sub ≠ a.
Proof.
  eexists _, _, _, _. split; [by apply generate_pptx_Return|].
  split; [reflexivity|]. split; [reflexivity|]. split; [reflexivity|].
  split; [reflexivity|]. discriminate.
Qed.

(** C4, amended.  For every payload whose strings hold no surrogate, U+FFFE
    or U+FFFF, the first slide of the document is of the title layout; its
    title text is the topic as a shape reads it back, which is the topic
    itself when it holds no escaped control; its subtitle text is the
    author read back in the same way when the author is present and not
    empty, and ["Auto-generated presentation"] when the author is absent
    or empty.  When the topic is latin-1 the handler returns a response
    that streams this document. *)
Theorem generate_pptx_title_slide (payload : PresentationPayload) :
  payload_ok payload = true →
  ∃ prs sl ttl sub,
    build_presentation payload Pptx.new_Presentation = (Return tt, prs)
    ∧ (latin1_ok (topic payload) = true →
       ∃ r, generate_pptx payload = Return r ∧ Starlette.content r = prs)
    ∧ Pptx.slides prs !! 0 = Some sl
    ∧ Pptx.slide_layout sl = Pptx.title_slide_layout
    ∧ Pptx.placeholders sl !! 0 = Some ttl
    ∧ Pptx.shape_text ttl = shape_readback (topic payload)
    ∧ (no_escape (topic payload) = true → Pptx.shape_text ttl = topic payload)
    ∧ Pptx.placeholders sl !! 1 = Some sub
    ∧ Pptx.shape_text sub
      = match author payload with
        | Some (c :: a) => shape_readback (c :: a)
        | Some [] | None => u "Auto-generated presentation"
        end
    ∧ (∀ a, author payload = Some a → a ≠ [] → no_escape a = true →
       Pptx.shape_text sub = a).
Proof.
  intros Hok. eexists _, _, _, _. split; [by apply built_document_eq|].
  split.
  { intros Hl. exists (response payload). split; [by apply generate_pptx_Return|done]. }
  split; [reflexivity|]. split; [reflexivity|]. split; [reflexivity|].
  split; [apply text_shape_text|].
  split; [intros Hn; by rewrite text_shape_text, shape_readback_id|].
  split; [reflexivity|]. rewrite text_shape_text. split.
  - destruct (author payload) as [[|c a]|]; reflexivity.
  - intros a -> Ha Hn. destruct a as [|c a]; [done|]. simpl.
    by apply shape_readback_id.
Qed.

Lemma generate_pptx_title_slide_my_talk :
  payload_ok payload_my_talk = true
  ∧ ∃ prs sl ttl sub,
      build_presentation payload_my_talk Pptx.new_Presentation = (Return tt, prs)
      ∧ Pptx.slides prs !! 0 = Some sl
      ∧ Pptx.placeholders sl !! 0 = Some ttl
      ∧ Pptx.shape_text ttl = u "My Talk"
      ∧ Pptx.placeholders sl !! 1 = Some sub
      ∧ Pptx.shape_text sub = u "Jo".
Proof.
  split; [reflexivity|].
  destruct (generate_pptx_title_slide payload_my_talk)
    as (prs & sl & ttl & sub & Hb & _ & Hsl & _ & Ht & Htt & _ & Hs & Hst & _);
    [reflexivity|].
  exists prs, sl, ttl, sub. repeat split; assumption.
Defined.

(** The example of the specification: the stream is named [My_Talk.pptx],
    the subtitle is [Jo], and the one content slide is titled [Intro]. *)
Example generate_pptx_my_talk :
  ∃ r, generate_pptx payload_my_talk = Return r
    ∧ Starlette.header "Content-Disposition" r
      = Some (u "attachment; filename=" ++ [dquote] ++ u "My_Talk.pptx" ++ [dquote])
    ∧ (fun sl => (Pptx.slide_title_text sl,
                  Pptx.shape_text <$> Pptx.placeholders sl !! 1))
        <$> Pptx.slides (Starlette.content r)
      = [ (Some (u "My Talk"), Some (u "Jo"));
          (Some (u "Intro"), Some (u "A" ++ [newline] ++ u "B")) ].
Proof. eexists. split; [by apply generate_pptx_Return|]. split; reflexivity. Qed.

End generator_claims.

(* ===================================================================== *)
(** * Properties of request validation *)
(* ===================================================================== *)

Section validation_facts.

Lemma members_get_cons_ne k k' v ms :
  k' ≠ k → members_get k ((k', v) :: ms) = members_get k ms.
Proof.
  intros Hne. simpl. destruct (members_get k ms); [done|]. by rewrite decide_False.
Qed.

Lemma members_get_cons_eq k v ms :
  members_get k ms = None → members_get k ((k, v) :: ms) = Some v.
Proof. intros H. simpl. rewrite H. by rewrite decide_True. Qed.

Lemma both_Valid {A B} (a : validated A) (b : validated B) x y :
  both a b = Valid (x, y) ↔ a = Valid x ∧ b = Valid y.
Proof.
  destruct a, b; simpl; split; try discriminate; try (intros [??]; discriminate).
  - intros [= -> ->]. done.
  - intros [[= ->] [= ->]]. done.
Qed.



End validation_facts.

Section validation_claims.
Import Generator Samples.









End validation_claims.

(* ===================================================================== *)
(** * Properties of the database probe *)
(* ===================================================================== *)

Section probe_claims.
Import Probe Samples.

(** The probe always returns, whatever the import does, and its two
    environment fields are decided by the truth value of the variables. *)
Lemma test_database_returns environ import_db :
  ∃ r, test_database environ import_db = Return r
       ∧ database_url r
         = Some (if truthy_opt (getenv environ "DATABASE_URL") then msg_set else msg_not_set)
       ∧ database_name r
         = Some (if truthy_opt (getenv environ "DATABASE_NAME") then msg_set else msg_not_set).
Proof.
  destruct import_db as [[[name [names|e]]|]|[[] msg]];
    (eexists; split; [reflexivity|]; split; reflexivity).
Qed.

(** C5.  When [db] is not [None]: if [list_collection_names()] returns
    [names], the probe returns with [database] = "Connected & Working" and
    [collections] = the first 10 of [names]; if it raises [e], the probe
    still returns, with [database] = "Connected but Error: " followed
    by the first 50 characters of [str(e)]. *)
Theorem test_database_initialized (environ : gmap string str)
    (name : option str) (listing : result (list str)) :
  ∃ r,
    test_database environ
      (Return (Some {| db_name := name; list_collection_names := listing |}))
    = Return r
    ∧ match listing with
      | Return names =>
          database r = u "✅ Connected & Working"
          ∧ collections r = take 10 names
          ∧ (length (collections r) ≤ 10)%nat
      | Raise e =>
          database r = u "⚠️  Connected but Error: " ++ take 50 (exn_str e)
          ∧ (length (take 50 (exn_str e)) ≤ 50)%nat
      end.
Proof.
  destruct listing as [names|e]; (eexists; split; [reflexivity|]); simpl.
  - split; [reflexivity|]. split; [reflexivity|]. rewrite length_take. lia.
  - split; [reflexivity|]. rewrite length_take. lia.
Qed.

(** C6.  When [from database import db] raises [ImportError], the probe
    returns, and [database] is the module-not-found message, which starts
    with "Database module not found" after the cross mark. *)
Theorem test_database_module_not_found (environ : gmap string str) (msg : str) :
  ∃ r,
    test_database environ (Raise (Exn ImportError msg)) = Return r
    ∧ database r = u "❌ Database module not found (run enable-database first)"
    ∧ u "❌ Database module not found" `prefix_of` database r.
Proof.
  eexists. split; [reflexivity|]. split; [reflexivity|].
  exists (u " (run enable-database first)"). reflexivity.
Qed.

(** C7.  The response depends on [DATABASE_URL] and [DATABASE_NAME] only
    through the truth value of each: two environments in which each
    variable has the same truth value (so also two that set both to
    different non-empty values) give the same response, and the two fields
    are always one of the constants "Set" and "Not Set". *)
Theorem test_database_env_presence_only (env1 env2 : gmap string str)
    (import_db : result (option Database)) :
  truthy_opt (getenv env1 "DATABASE_URL") = truthy_opt (getenv env2 "DATABASE_URL") →
  truthy_opt (getenv env1 "DATABASE_NAME") = truthy_opt (getenv env2 "DATABASE_NAME") →
  test_database env1 import_db = test_database env2 import_db
  ∧ ∃ r, test_database env1 import_db = Return r
         ∧ (database_url r = Some (u "✅ Set") ∨ database_url r = Some (u "❌ Not Set"))
         ∧ (database_name r = Some (u "✅ Set") ∨ database_name r = Some (u "❌ Not Set")).
Proof.
  intros Hurl Hname. split.
  - unfold test_database. by rewrite Hurl, Hname.
  - destruct (test_database_returns env1 import_db) as (r & Hr & Hu & Hn).
    exists r. split; [exact Hr|]. rewrite Hu, Hn.
    split;
      [ destruct (truthy_opt (getenv env1 "DATABASE_URL"))
      | destruct (truthy_opt (getenv env1 "DATABASE_NAME")) ];
      [left | right | left | right]; reflexivity.
Qed.

Lemma test_database_env_presence_only_alpha_beta :
  environ_alpha !! "DATABASE_URL" ≠ environ_beta !! "DATABASE_URL"
  ∧ environ_alpha !! "DATABASE_NAME" ≠ environ_beta !! "DATABASE_NAME"
  ∧ test_database environ_alpha (Return None) = test_database environ_beta (Return None)
  ∧ ∃ r, test_database environ_alpha (Return None) = Return r
         ∧ (database_url r = Some (u "✅ Set") ∨ database_url r = Some (u "❌ Not Set"))
         ∧ (database_name r = Some (u "✅ Set") ∨ database_name r = Some (u "❌ Not Set")).
Proof.
  split; [by vm_compute|]. split; [by vm_compute|].
  apply (test_database_env_presence_only environ_alpha environ_beta (Return None));
    reflexivity.
Defined.

(** C8.  When [DATABASE_URL] is unset, [database_url] is "Not Set" with
    the cross mark, whatever the import of the database module does. *)
Theorem test_database_url_unset (environ : gmap string str)
    (import_db : result (option Database)) :
  getenv environ "DATABASE_URL" = None →
  ∃ r, test_database environ import_db = Return r
       ∧ database_url r = Some (u "❌ Not Set").
Proof.
  intros Hunset.
  destruct (test_database_returns environ import_db) as (r & Hr & Hu & _).
  exists r. split; [exact Hr|]. rewrite Hu, Hunset. reflexivity.
Qed.

Lemma test_database_url_unset_empty_environ :
  getenv ∅ "DATABASE_URL" = None
  ∧ ∃ r, test_database ∅ (Raise (Exn ImportError (u "No module named 'database'")))
         = Return r
         ∧ database_url r = Some (u "❌ Not Set").
Proof.
  split; [reflexivity|].
  apply (test_database_url_unset ∅ (Raise (Exn ImportError (u "No module named 'database'")))).
  reflexivity.
Defined.

End probe_claims.

(* ===================================================================== *)
(** * Further properties of the database probe *)
(* ===================================================================== *)

Section probe_extras.
Import Probe Samples.

(** X1.  The probe always reports the backend as running, and reports
    [connection_status] = "Connected" exactly when the import gave a handle
    that is not [None], also when listing the collections then fails; a
    handle that is [None] is reported as available but not initialized,
    with no collections. *)
Theorem test_database_connection_status (environ : gmap string str)
    (import_db : result (option Database)) :
  ∃ r, test_database environ import_db = Return r
       ∧ backend r = u "✅ Running"
       ∧ connection_status r
         = match import_db with
           | Return (Some _) => u "Connected"
           | Return None | Raise _ => u "Not Connected"
           end
       ∧ match import_db with
         | Return None => database r = u "⚠️  Available but not initialized"
                          ∧ collections r = []
         | _ => True
         end.
Proof.
  destruct import_db as [[[name [names|e]]|]|[[] msg]];
    (eexists; split; [reflexivity|]; repeat split).
Qed.

(** X2.  When the import raises an exception that is not an [ImportError],
    the probe returns with [database] = "Error: " (after the cross mark)
    followed by the first 50 characters of the message, the whole message
    when it has at most 50, and with no collections. *)
Theorem test_database_import_failure (environ : gmap string str) (e : exn) :
  is_ImportError e = false →
  ∃ r, test_database environ (Raise e) = Return r
       ∧ database r = u "❌ Error: " ++ take 50 (exn_str e)
       ∧ ((length (exn_str e) ≤ 50)%nat → database r = u "❌ Error: " ++ exn_str e)
       ∧ collections r = [].
Proof.
  intros He. destruct e as [cls msg]. destruct cls; try discriminate He;
    (eexists; split; [reflexivity|]; split; [reflexivity|]; split; [|reflexivity];
     intros Hlen; simpl; unfold msg_error; by rewrite take_ge).
Qed.

Lemma test_database_import_failure_refused :
  is_ImportError (Exn OtherException (u "connection refused")) = false
  ∧ ∃ r, test_database ∅ (Raise (Exn OtherException (u "connection refused"))) = Return r
         ∧ database r = u "❌ Error: connection refused".
Proof.
  split; [reflexivity|].
  destruct (test_database_import_failure ∅ (Exn OtherException (u "connection refused")))
    as (r & Hr & Hd & _); [reflexivity|].
  exists r. split; [exact Hr|]. rewrite Hd. reflexivity.
Defined.

(** X3.  The name of the database never reaches the response: line 81
    overwrites what line 60 stored, so two handles that differ only in
    [name], or in having one, give the same response. *)
Theorem test_database_ignores_db_name (environ : gmap string str)
    (name1 name2 : option str) (listing : result (list str)) :
  test_database environ
    (Return (Some {| db_name := name1; list_collection_names := listing |}))
  = test_database environ
      (Return (Some {| db_name := name2; list_collection_names := listing |})).
Proof. destruct listing; reflexivity. Qed.

(** X4.  The response is bounded whatever the collaborator does: the
    [database] field has at most 75 characters (the longest prefix, 25, plus
    a message cut at 50) and [collections] has at most 10 names. *)
Theorem test_database_response_bounded (environ : gmap string str)
    (import_db : result (option Database)) :
  ∃ r, test_database environ import_db = Return r
       ∧ (length (database r) ≤ 75)%nat
       ∧ (length (collections r) ≤ 10)%nat.
Proof.
  assert (Hbut : length msg_connected_but_error = 25%nat) by reflexivity.
  assert (Herr : length msg_error = 9%nat) by reflexivity.
  destruct import_db as [[[name [names|e]]|]|[[] msg]];
    (eexists; split; [reflexivity|]); simpl;
    rewrite ?length_app, ?length_take, ?Hbut, ?Herr; split; lia.
Qed.
Lemma truthy_opt_true (o : option str) :
  truthy_opt o = true ↔ ∃ v, o = Some v ∧ v ≠ [].
Proof.
  destruct o as [[|c w]|]; simpl; split; try discriminate; try done.
  - intros (v & [= <-] & Hv). done.
  - intros _. eexists. split; [reflexivity|discriminate].
  - intros (v & Hv & _). discriminate.
Qed.

(** X5.  [database_url] is "Set" exactly when [DATABASE_URL] is set to a
    non-empty value, and likewise [database_name] for [DATABASE_NAME]; a
    variable set to the empty string is reported "Not Set". *)
Theorem test_database_env_flags (environ : gmap string str)
    (import_db : result (option Database)) :
  ∃ r, test_database environ import_db = Return r
       ∧ (database_url r = Some (u "✅ Set")
          ↔ ∃ v, environ !! "DATABASE_URL" = Some v ∧ v ≠ [])
       ∧ (database_name r = Some (u "✅ Set")
          ↔ ∃ v, environ !! "DATABASE_NAME" = Some v ∧ v ≠ [])
       ∧ (environ !! "DATABASE_URL" = Some [] → database_url r = Some (u "❌ Not Set"))
       ∧ (environ !! "DATABASE_NAME" = Some [] → database_name r = Some (u "❌ Not Set")).
Proof.
  destruct (test_database_returns environ import_db) as (r & Hr & Hu & Hn).
  exists r. split; [exact Hr|]. rewrite Hu, Hn. clear Hr Hu Hn. unfold getenv.
  repeat split.
  - intros H. apply truthy_opt_true. destruct (truthy_opt _); [done|].
    by vm_compute in H.
  - intros H. apply truthy_opt_true in H. by rewrite H.
  - intros H. apply truthy_opt_true. destruct (truthy_opt _); [done|].
    by vm_compute in H.
  - intros H. apply truthy_opt_true in H. by rewrite H.
  - intros H. by rewrite H.
  - intros H. by rewrite H.
Qed.

(** X6.  The environment decides nothing but the two flags: [backend],
    [database], [connection_status] and [collections] are the same in any
    two environments. *)
Theorem test_database_env_only_flags (env1 env2 : gmap string str)
    (import_db : result (option Database)) :
  ∃ r1 r2,
    test_database env1 import_db = Return r1
    ∧ test_database env2 import_db = Return r2
    ∧ backend r1 = backend r2
    ∧ database r1 = database r2
    ∧ connection_status r1 = connection_status r2
    ∧ collections r1 = collections r2.
Proof.
  destruct import_db as [[[name [names|e]]|]|[[] msg]];
    (eexists _, _; split; [reflexivity|]; split; [reflexivity|]; repeat split).
Qed.

End probe_extras.

(* ===================================================================== *)
(** * Further properties of the generator *)
(* ===================================================================== *)

Section generator_extras.
Import Generator Document Samples.

Lemma after_bullets_nonempty bs : after_bullets true [Pptx.empty_paragraph] bs ≠ [].
Proof.
  destruct bs as [|b bs]; [discriminate|]. by rewrite after_bullets_first.
Qed.

(** X18.  The handler returns exactly when every string of the payload can
    be stored (no surrogate, U+FFFE or U+FFFF) and the topic is latin-1,
    and then returns the response of the closed form; on a payload that
    can be stored with a topic outside latin-1 it raises
    [UnicodeEncodeError] after the document is built; on any other
    payload it raises a [ValueError] from the library. *)
Theorem generate_pptx_returns_iff (payload : PresentationPayload) :
  ((∃ r, generate_pptx payload = Return r)
   ↔ payload_ok payload = true ∧ latin1_ok (topic payload) = true)
  ∧ (∀ r, generate_pptx payload = Return r → r = response payload)
  ∧ (∀ e, generate_pptx payload = Raise e → is_ValueError e = true).
Proof.
  destruct (payload_ok payload) eqn:Hok.
  - destruct (latin1_ok (topic payload)) eqn:Hl.
    + rewrite (generate_pptx_Return _ Hok Hl). split; [|split].
      * split; [done|eauto].
      * by intros r [= <-].
      * discriminate.
    + destruct (generate_pptx_header_raises _ Hok Hl) as (e & He & Hcls).
      rewrite He. split; [|split].
      * split; [intros [r [=]]|intros [_ [=]]].
      * discriminate.
      * intros e' [= <-]. unfold is_ValueError. by rewrite Hcls.
  - destruct (generate_pptx_library_raises _ Hok) as (e & He & Hcls).
    rewrite He. split; [|split].
    + split; [intros [r [=]]|intros [[=] _]].
    + discriminate.
    + by intros e' [= <-].
Qed.

(** X7.  On a payload that can be stored, the presentation the handler
    builds keeps the layouts of the template, and every slide of it has
    exactly the placeholders 0 and 1, each with at least one paragraph. *)
Theorem generate_pptx_placeholders (payload : PresentationPayload) :
  payload_ok payload = true →
  ∃ prs,
    build_presentation payload Pptx.new_Presentation = (Return tt, prs)
    ∧ Pptx.slide_layouts prs = Pptx.default_layouts
    ∧ Forall (fun sl =>
                dom (Pptx.placeholders sl) = ({[ 0; 1 ]} : gset nat)
                ∧ map_Forall (fun _ sh => Pptx.paragraphs sh ≠ []) (Pptx.placeholders sl))
        (Pptx.slides prs).
Proof.
  intros Hok. eexists. split; [by apply built_document_eq|]. split; [reflexivity|].
  assert (Hshape : ∀ ty s, Pptx.paragraphs (text_shape ty s) ≠ []).
  { intros ty s. simpl. intros H%fmap_nil_inv. by destruct (split_on_nonempty _ _ H). }
  simpl. apply Forall_cons. split.
  - split.
    + simpl. rewrite !dom_insert_L, dom_empty_L. set_solver.
    + simpl. apply map_Forall_insert_2; [apply Hshape|].
      apply map_Forall_insert_2; [apply Hshape|]. apply map_Forall_empty.
  - apply Forall_fmap, Forall_true. intros s. split.
    + simpl. rewrite !dom_insert_L, dom_empty_L. set_solver.
    + simpl. apply map_Forall_insert_2; [apply Hshape|].
      apply map_Forall_insert_2; [apply after_bullets_nonempty|]. apply map_Forall_empty.
Qed.

Lemma generate_pptx_placeholders_my_talk :
  payload_ok payload_my_talk = true
  ∧ ∃ prs,
      build_presentation payload_my_talk Pptx.new_Presentation = (Return tt, prs)
      ∧ Pptx.slide_layouts prs = Pptx.default_layouts
      ∧ Forall (fun sl =>
                  dom (Pptx.placeholders sl) = ({[ 0; 1 ]} : gset nat)
                  ∧ map_Forall (fun _ sh => Pptx.paragraphs sh ≠ []) (Pptx.placeholders sl))
          (Pptx.slides prs).
Proof.
  split; [reflexivity|]. apply (generate_pptx_placeholders payload_my_talk). reflexivity.
Defined.

(** X8.  A content slide is built from its own entry alone: two payloads
    that can be stored and have the same entry at index [N] get the same
    slide at position [N + 1], whatever their topics, authors and other
    entries. *)
Theorem generate_pptx_slide_local (p1 p2 : PresentationPayload) (N : nat) (s : Slide) :
  payload_ok p1 = true →
  payload_ok p2 = true →
  slides p1 !! N = Some s →
  slides p2 !! N = Some s →
  ∃ prs1 prs2 sl,
    build_presentation p1 Pptx.new_Presentation = (Return tt, prs1)
    ∧ build_presentation p2 Pptx.new_Presentation = (Return tt, prs2)
    ∧ Pptx.slides prs1 !! S N = Some sl
    ∧ Pptx.slides prs2 !! S N = Some sl.
Proof.
  intros Hok1 Hok2 H1 H2. eexists _, _, _.
  split; [by apply built_document_eq|]. split; [by apply built_document_eq|].
  split; by apply content_slide_lookup.
Qed.

Lemma generate_pptx_slide_local_my_talk :
  payload_ok payload_my_talk = true
  ∧ payload_ok {| topic := payload_cyrillic.(topic);
                  slides := [slide_intro; slide_intro]; author := None |} = true
  ∧ ∃ prs1 prs2 sl,
      build_presentation payload_my_talk Pptx.new_Presentation = (Return tt, prs1)
      ∧ build_presentation
          {| topic := payload_cyrillic.(topic);
             slides := [slide_intro; slide_intro]; author := None |}
          Pptx.new_Presentation
        = (Return tt, prs2)
      ∧ Pptx.slides prs1 !! 1 = Some sl
      ∧ Pptx.slides prs2 !! 1 = Some sl.
Proof.
  split; [reflexivity|]. split; [reflexivity|].
  apply (generate_pptx_slide_local payload_my_talk
           {| topic := payload_cyrillic.(topic);
              slides := [slide_intro; slide_intro]; author := None |}
           0 slide_intro); reflexivity.
Defined.

(** X9.  On a payload that can be stored, adding entries at the end of
    [slides] adds as many slides at the end of the document and leaves the
    slides before them as they were, when the new entries can be stored;
    when one of them cannot, the handler raises and there is no document
    at all. *)
Theorem generate_pptx_extend (payload : PresentationPayload) (more : list Slide) :
  payload_ok payload = true →
  ∃ prs,
    build_presentation payload Pptx.new_Presentation = (Return tt, prs)
    ∧ (forallb slide_ok more = true →
       ∃ prs',
         build_presentation {| topic := topic payload;
                               slides := slides payload ++ more;
                               author := author payload |} Pptx.new_Presentation
         = (Return tt, prs')
         ∧ Pptx.slides prs `prefix_of` Pptx.slides prs'
         ∧ length (Pptx.slides prs') = length (Pptx.slides prs) + length more)
    ∧ (forallb slide_ok more = false →
       raises_ValueError
         (build_presentation {| topic := topic payload;
                                slides := slides payload ++ more;
                                author := author payload |}) Pptx.new_Presentation).
Proof.
  intros Hok. exists (document payload). split; [by apply built_document_eq|].
  pose proof Hok as Hok'.
  apply andb_true_iff in Hok' as [Hhead Hss].
  split.
  - intros Hmore. eexists. split.
    + apply built_document_eq. unfold payload_ok; simpl.
      by rewrite Hhead, forallb_app, Hss, Hmore.
    + simpl. split.
      * exists (content_slide <$> more). unfold title_slide; simpl. by rewrite fmap_app.
      * rewrite !length_fmap, length_app. lia.
  - intros Hmore. apply build_presentation_raises. unfold payload_ok; simpl.
    rewrite Hhead, forallb_app, Hss, Hmore. reflexivity.
Qed.

Lemma generate_pptx_extend_my_talk :
  payload_ok payload_my_talk = true
  ∧ ∃ prs prs',
      build_presentation payload_my_talk Pptx.new_Presentation = (Return tt, prs)
      ∧ build_presentation {| topic := topic payload_my_talk;
                              slides := slides payload_my_talk ++ [slide_intro];
                              author := author payload_my_talk |} Pptx.new_Presentation
        = (Return tt, prs')
      ∧ Pptx.slides prs `prefix_of` Pptx.slides prs'
      ∧ length (Pptx.slides prs') = 3.
Proof.
  split; [reflexivity|].
  destruct (generate_pptx_extend payload_my_talk [slide_intro])
    as (prs & Hb & Hmore & _); [reflexivity|].
  destruct (Hmore eq_refl) as (prs' & Hb' & Hpre & Hlen).
  exists prs, prs'. split; [exact Hb|]. split; [exact Hb'|]. split; [exact Hpre|].
  rewrite Hlen. injection Hb as <-. reflexivity.
Defined.

Lemma replace_idempotent old new s :
  new ≠ old → replace old new (replace old new s) = replace old new s.
Proof.
  intros Hne. unfold replace. rewrite <- list_fmap_compose.
  apply list_fmap_ext. intros _ c _. simpl.
  destruct (N.eqb_spec c old) as [->|Hc].
  - by destruct (N.eqb_spec new old).
  - by destruct (N.eqb_spec c old).
Qed.

Lemma content_disposition_inj f1 f2 :
  content_disposition f1 = content_disposition f2 → f1 = f2.
Proof.
  unfold content_disposition. intros H.
  apply app_inv_head in H. apply app_inv_head in H. by apply app_inv_tail in H.
Qed.

(** X10.  Two requests that are answered get the same
    [Content-Disposition] exactly when their topics are equal once spaces
    are replaced by underscores; so a topic and the same topic written
    with underscores for spaces share one filename. *)
Theorem generate_pptx_same_header (p1 p2 : PresentationPayload) :
  payload_ok p1 = true → latin1_ok (topic p1) = true →
  payload_ok p2 = true → latin1_ok (topic p2) = true →
  ∃ r1 r2,
    generate_pptx p1 = Return r1
    ∧ generate_pptx p2 = Return r2
    ∧ (Starlette.header "Content-Disposition" r1
       = Starlette.header "Content-Disposition" r2
       ↔ replace space underscore (topic p1) = replace space underscore (topic p2))
    ∧ (topic p2 = replace space underscore (topic p1) →
       Starlette.raw_headers r1 = Starlette.raw_headers r2).
Proof.
  intros Hok1 Hl1 Hok2 Hl2. exists (response p1), (response p2).
  split; [by apply generate_pptx_Return|]. split; [by apply generate_pptx_Return|].
  assert (Hiff : Starlette.header "Content-Disposition" (response p1)
                 = Starlette.header "Content-Disposition" (response p2)
                 ↔ replace space underscore (topic p1)
                   = replace space underscore (topic p2)).
  { change (Some (content_disposition (filename_of (topic p1)))
            = Some (content_disposition (filename_of (topic p2)))
            ↔ replace space underscore (topic p1)
              = replace space underscore (topic p2)).
    split.
    - intros H. apply (inj Some) in H. apply content_disposition_inj in H.
      unfold filename_of in H. by apply app_inv_tail in H.
    - intros H. unfold filename_of. by rewrite H. }
  split; [exact Hiff|].
  intros Heq. unfold response; simpl. unfold filename_of.
  rewrite Heq, replace_idempotent; [reflexivity|by vm_compute].
Qed.

Lemma generate_pptx_same_header_my_talk :
  payload_ok payload_my_talk = true ∧ latin1_ok (topic payload_my_talk) = true
  ∧ ∃ r1 r2,
      generate_pptx payload_my_talk = Return r1
      ∧ generate_pptx {| topic := u "My_Talk"; slides := []; author := None |} = Return r2
      ∧ Starlette.header "Content-Disposition" r1
        = Starlette.header "Content-Disposition" r2.
Proof.
  split; [reflexivity|]. split; [reflexivity|].
  destruct (generate_pptx_same_header payload_my_talk
              {| topic := u "My_Talk"; slides := []; author := None |})
    as (r1 & r2 & H1 & H2 & Hiff & _); [reflexivity..|].
  exists r1, r2. split; [exact H1|]. split; [exact H2|]. apply Hiff. reflexivity.
Defined.

Lemma count_replace (c old new : N) s :
  c ≠ old → c ≠ new →
  length (filter (fun x => x = c) (replace old new s))
  = length (filter (fun x => x = c) s).
Proof.
  intros Ho Hn. unfold replace. induction s as [|x s IH]; [done|].
  rewrite fmap_cons, !filter_cons. cbn beta.
  destruct (N.eqb_spec x old) as [->|Hx].
  - rewrite decide_False by done. rewrite (decide_False (P := old = c)) by done. exact IH.
  - destruct (decide (x = c)); simpl; by rewrite IH.
Qed.

(** X11.  The topic goes into the header unescaped: when the request is
    answered, the header value has the two double quotes that delimit the
    filename, and one more for each double quote of the topic. *)
Theorem generate_pptx_header_quotes (payload : PresentationPayload) :
  payload_ok payload = true →
  latin1_ok (topic payload) = true →
  ∃ r v,
    generate_pptx payload = Return r
    ∧ Starlette.header "Content-Disposition" r = Some v
    ∧ length (filter (fun c => c = dquote) v)
      = 2 + length (filter (fun c => c = dquote) (topic payload)).
Proof.
  intros Hok Hl. eexists _, _. split; [by apply generate_pptx_Return|].
  split; [reflexivity|].
  unfold content_disposition, filename_of.
  rewrite !filter_app, !length_app.
  rewrite count_replace by (by vm_compute).
  change (length (filter (fun c => c = dquote) (u "attachment; filename="))) with 0.
  change (length (filter (fun c => c = dquote) (u ".pptx"))) with 0.
  change (length (filter (fun c => c = dquote) [dquote])) with 1.
  lia.
Qed.

Lemma generate_pptx_header_quotes_quoted :
  payload_ok {| topic := [dquote] ++ u "x" ++ [dquote]; slides := []; author := None |}
  = true
  ∧ ∃ r v,
      generate_pptx {| topic := [dquote] ++ u "x" ++ [dquote]; slides := [];
                       author := None |} = Return r
      ∧ Starlette.header "Content-Disposition" r = Some v
      ∧ length (filter (fun c => c = dquote) v) = 4.
Proof.
  split; [reflexivity|].
  apply (generate_pptx_header_quotes
           {| topic := [dquote] ++ u "x" ++ [dquote]; slides := []; author := None |});
    reflexivity.
Defined.

End generator_extras.

(* ===================================================================== *)
(** * Further properties of validation and of the route *)
(* ===================================================================== *)

Section error_facts.












End error_facts.

Section validation_extras.
Import Generator Document Samples.














Lemma all_valid_imap_roundtrip {A} (enc : A → json) (xs : list A) :
  ∀ g : nat → json → validated A,
    (∀ i x, g i (enc x) = Valid x) →
    all_valid (imap g (enc <$> xs)) = Valid xs.
Proof.
  induction xs as [|x xs IH]; intros g Hg; [done|].
  rewrite fmap_cons, imap_cons. cbn [all_valid].
  rewrite Hg, (IH (g ∘ S)); [reflexivity|]. intros i y. apply Hg.
Qed.

Lemma validate_Slide_roundtrip (s : Slide) :
  validate_Slide
    (JObject [ (u "title", JString (title s));
               (u "bullets", JArray (JString <$> bullets s)) ])
  = Valid s.
Proof.
  unfold validate_Slide, required_field, defaulted_field.
  rewrite (members_get_cons_eq (u "title")) by reflexivity.
  rewrite (members_get_cons_ne (u "bullets")) by (by vm_compute).
  rewrite (members_get_cons_eq (u "bullets")) by reflexivity.
  simpl validate_str. simpl at_loc at 1.
  unfold validate_list. rewrite (all_valid_imap_roundtrip JString) by done.
  simpl. by destruct s.
Qed.

(** X16.  Every payload can be submitted: the body made of its topic, its
    slides as objects with [title] and [bullets], and its author (or
    [null]) validates to exactly that payload. *)
Theorem validate_PresentationPayload_roundtrip (payload : PresentationPayload) :
  validate_PresentationPayload
    (JObject
       [ (u "topic", JString (topic payload));
         (u "slides",
          JArray ((fun s => JObject [ (u "title", JString (title s));
                                      (u "bullets", JArray (JString <$> bullets s)) ])
                    <$> slides payload));
         (u "author", match author payload with
                      | Some a => JString a
                      | None => JNull
                      end) ])
  = Valid payload.
Proof.
  unfold validate_PresentationPayload, required_field, defaulted_field.
  rewrite (members_get_cons_eq (u "topic")) by reflexivity.
  rewrite (members_get_cons_ne (u "slides")) by (by vm_compute).
  rewrite (members_get_cons_eq (u "slides")) by reflexivity.
  rewrite !(members_get_cons_ne (u "author")) by (by vm_compute).
  rewrite (members_get_cons_eq (u "author")) by reflexivity.
  unfold validate_list.
  rewrite all_valid_imap_roundtrip
    by (intros i s; by rewrite validate_Slide_roundtrip).
  destruct payload as [t ss [a|]]; reflexivity.
Qed.

(** X17.  An [author] that is absent or [null] is no author: the validated
    payload has [author = None], and when its strings can be stored the
    subtitle of the document is the default
    "Auto-generated presentation". *)
Theorem author_null_or_absent (ms : list (str * json)) (payload : PresentationPayload) :
  members_get (u "author") ms = None ∨ members_get (u "author") ms = Some JNull →
  validate_PresentationPayload (JObject ms) = Valid payload →
  payload_ok payload = true →
  author payload = None
  ∧ ∃ prs sl sub,
      build_presentation payload Pptx.new_Presentation = (Return tt, prs)
      ∧ Pptx.slides prs !! 0 = Some sl
      ∧ Pptx.placeholders sl !! 1 = Some sub
      ∧ Pptx.shape_text sub = u "Auto-generated presentation".
Proof.
  intros Ha Hv Hok.
  assert (Hnone : author payload = None).
  { revert Hv. unfold validate_PresentationPayload, defaulted_field at 2.
    destruct (both _ _) as [[t [ss a]]|] eqn:Hb; [|done].
    intros [= <-]. simpl. apply both_Valid in Hb as [_ Hb].
    apply both_Valid in Hb as [_ Hb].
    destruct Ha as [Ha|Ha]; rewrite Ha in Hb; simpl in Hb; congruence. }
  split; [exact Hnone|].
  eexists _, _, _. split; [by apply built_document_eq|].
  split; [reflexivity|]. split; [reflexivity|].
  rewrite text_shape_text, Hnone. reflexivity.
Qed.

Lemma author_null_or_absent_null :
  (members_get (u "author") [ (u "slides", JArray []); (u "author", JNull) ] = None
   ∨ members_get (u "author") [ (u "slides", JArray []); (u "author", JNull) ]
     = Some JNull)
  ∧ validate_PresentationPayload
      (JObject [ (u "slides", JArray []); (u "author", JNull) ])
    = Valid {| topic := default_topic; slides := []; author := None |}
  ∧ payload_ok {| topic := default_topic; slides := []; author := None |} = true
  ∧ ∃ prs sl sub,
      build_presentation {| topic := default_topic; slides := []; author := None |}
        Pptx.new_Presentation
      = (Return tt, prs)
      ∧ Pptx.slides prs !! 0 = Some sl
      ∧ Pptx.placeholders sl !! 1 = Some sub
      ∧ Pptx.shape_text sub = u "Auto-generated presentation".
Proof.
  split; [right; reflexivity|]. split; [reflexivity|]. split; [reflexivity|].
  destruct (author_null_or_absent
              [ (u "slides", JArray []); (u "author", JNull) ]
              {| topic := default_topic; slides := []; author := None |})
    as [_ Hdoc]; [right; reflexivity | reflexivity | reflexivity | exact Hdoc].
Defined.

End validation_extras.
